(** * netflix_analysis.py: a shallow embedding and its properties

    The script loads one sheet of a workbook into a table, standardises the
    column labels, derives numeric duration columns from the free-text
    [duration] column, and writes a handful of summary artifacts.

    Conventions of the embedding.
    - A Python [str] is a [string] whose characters are read as the code
      points 0..255.  On that range the regular-expression class [\d] is
      exactly ['0'..'9'], and [str.lower] and [str.strip] are the maps written
      out below.
    - A [Sheet] is the table that [pd.read_excel] returns for a sheet of the
      workbook: the header labels, which are texts, and the cells after the
      conversions of the reader, which turns an empty cell and a text it
      takes for a missing-value marker into a missing value.  A cell is a
      text, an integer or a missing value.
    - pandas decides per column how the cells are held.  A column with a text
      cell holds Python objects; a column of integers holds 64-bit integers;
      a column of integers and missing values holds double-precision numbers.
      The conversions that depend on it ([astype(str)], [pd.to_numeric],
      [Series.where], [astype(int)]) are therefore functions of the column.
      A number that becomes double-precision is rounded to the nearest such
      number; overflow to infinity, which takes more than 308 digits, is
      left out.
    - What the libraries compute and the script does not determine is a
      field of [Library]: how the parser of pandas reads a text that is not a
      plain run of digits, how Python prints a double-precision number, and
      whether numpy can cut the range of the data into 25 bins.  The
      properties hold for every library.
    - A table is a finite map from labels to columns.  When two headers of
      the sheet standardise to the same label, pandas keeps both columns under
      one label and the map cannot hold that table; the properties about such
      sheets assume [distinct_labels].
    - The output directory is a finite map from file names to artifacts; an
      artifact records the data handed to the serialiser ([to_csv], [f.write],
      [savefig]) rather than the bytes the serialiser produces from it.  Of
      the plotting library only the refusal to plot an empty frame and the
      refusal of the histogram are modelled. *)

From Stdlib Require Import ZArith Lia Ascii String.
From stdpp Require Import base option list sorting gmap strings pretty.

Open Scope string_scope.
Open Scope list_scope.

(** ** Characters and strings *)

Module Str.

Definition code (c : ascii) : N := N_of_ascii c.

Definition in_range (lo hi : N) (c : ascii) : bool :=
  (lo <=? code c)%N && (code c <=? hi)%N.

(** [\d] *)
Definition is_digit (c : ascii) : bool := in_range 48 57 c.

(** [[A-Za-z]] *)
Definition is_alpha (c : ascii) : bool := in_range 65 90 c || in_range 97 122 c.

(** The characters removed by [str.strip()] without argument. *)
Definition is_space (c : ascii) : bool :=
  in_range 9 13 c || in_range 28 32 c || (code c =? 133)%N || (code c =? 160)%N.

Definition is_upper (c : ascii) : bool :=
  in_range 65 90 c || (in_range 192 222 c && negb (code c =? 215)%N).

Definition lower_char (c : ascii) : ascii :=
  if is_upper c then ascii_of_N (code c + 32) else c.

(** [s.lower()] *)
Fixpoint lower (s : string) : string :=
  match s with
  | EmptyString => EmptyString
  | String c r => String (lower_char c) (lower r)
  end.

Fixpoint lstrip (s : string) : string :=
  match s with
  | EmptyString => EmptyString
  | String c r => if is_space c then lstrip r else s
  end.

Definition rstrip (s : string) : string := String.rev (lstrip (String.rev s)).

(** [s.strip()] *)
Definition strip (s : string) : string := rstrip (lstrip s).

(** [s.replace(old, new)] for one-character [old] and [new]. *)
Fixpoint replace (old new : ascii) (s : string) : string :=
  match s with
  | EmptyString => EmptyString
  | String c r =>
      String (if Ascii.eqb c old then new else c) (replace old new r)
  end.

(** The longest prefix of [s] made of characters satisfying [p]. *)
Fixpoint take_while (p : ascii → bool) (s : string) : string :=
  match s with
  | EmptyString => EmptyString
  | String c r => if p c then String c (take_while p r) else EmptyString
  end.

(** [re.search("([p]+)", s)]: the leftmost match, taken greedily. *)
Fixpoint search_run (p : ascii → bool) (s : string) : option string :=
  match s with
  | EmptyString => None
  | String c r =>
      if p c then Some (String c (take_while p r)) else search_run p r
  end.

Fixpoint forallb (p : ascii → bool) (s : string) : bool :=
  match s with
  | EmptyString => true
  | String c r => p c && forallb p r
  end.

Fixpoint startswith (pat s : string) : bool :=
  match pat, s with
  | EmptyString, _ => true
  | String _ _, EmptyString => false
  | String a pat', String c r => Ascii.eqb a c && startswith pat' r
  end.

(** [pat in s] for a literal pattern. *)
Fixpoint contains (pat s : string) : bool :=
  startswith pat s ||
  match s with
  | EmptyString => false
  | String _ r => contains pat r
  end.

Definition digit_value (c : ascii) : Z := Z.of_N (code c) - 48.

(** The value of a run of decimal digits, most significant digit first. *)
Fixpoint decimal_from (acc : Z) (s : string) : Z :=
  match s with
  | EmptyString => acc
  | String c r => decimal_from (10 * acc + digit_value c) r
  end.

Definition decimal (s : string) : Z := decimal_from 0 s.

Definition is_decimal (s : string) : bool :=
  negb (String.eqb s EmptyString) && forallb is_digit s.

End Str.

(** ** Cells *)

Inductive value :=
  | VStr (s : string)
  | VNum (z : Z)
  | VNA.

Global Instance value_eq_dec : EqDecision value.
Proof. solve_decision. Defined.

Definition isna (v : value) : bool :=
  match v with VNA => true | _ => false end.

Definition notna (v : value) : bool := negb (isna v).

(** [str(v)] for a cell of a column that holds Python objects or 64-bit
    integers: a missing value reads [nan]. *)
Definition astype_str (v : value) : string :=
  match v with
  | VStr s => s
  | VNum z => pretty z
  | VNA => "nan"
  end.

(** Element-wise actions of the [.str] accessor; a cell that is not a text
    yields a missing value. *)
Definition str_extract (p : ascii → bool) (v : value) : value :=
  match v with
  | VStr s => from_option VStr VNA (Str.search_run p s)
  | _ => VNA
  end.

Definition str_lower (v : value) : value :=
  match v with VStr s => VStr (Str.lower s) | _ => VNA end.

(** [.str.contains(pat, na=False)] *)
Definition str_contains (pat : string) (v : value) : bool :=
  match v with VStr s => Str.contains pat s | _ => false end.

(** [x.where(cond)] on one cell. *)
Definition where_ (x : value) (cond : bool) : value :=
  if cond then x else VNA.

(** ** Numbers *)

(** The double-precision number nearest to the integer [z], ties going to
    the even significand.  Integers up to 2^53 in absolute value are kept. *)
Definition round_f64 (z : Z) : Z :=
  let n := Z.abs z in
  let e := (Z.log2 n - 52)%Z in
  if (e <=? 0)%Z then z
  else
    let q := Z.shiftr n e in
    let r := Z.land n (Z.ones e) in
    let half := Z.shiftl 1 (e - 1) in
    let q' := if (r <? half)%Z || ((r =? half)%Z && Z.even q) then q else (q + 1)%Z in
    (Z.sgn z * Z.shiftl q' e)%Z.

(** A cell held as a double-precision number. *)
Definition to_float (v : value) : value :=
  match v with VNum z => VNum (round_f64 z) | _ => v end.

(** [col.astype(float)] *)
Definition as_float64 (col : list value) : list value := to_float <$> col.

(** The cell fits a column of 64-bit integers. *)
Definition int64_ok (v : value) : bool :=
  match v with
  | VNum z => (- 2 ^ 63 <=? z)%Z && (z <? 2 ^ 63)%Z
  | _ => false
  end.

(** The conversion of a number to a 64-bit integer: a number outside the
    range wraps around, so that 2^63 becomes -2^63.  (numpy wraps the
    unsigned integers; what becomes of a double-precision number beyond the
    range is left to the processor, which also makes -2^63 of 2^63.) *)
Definition wrap_int64 (z : Z) : Z := ((z + 2 ^ 63) `mod` 2 ^ 64 - 2 ^ 63)%Z.

(** [astype(int)] on one cell of a column without missing values. *)
Definition astype_int (v : value) : value :=
  match v with VNum z => VNum (wrap_int64 z) | _ => v end.

(** [x.where(cond)]: the rows where [cond] fails become missing values, and
    a column that receives a missing value becomes double-precision. *)
Definition where_col (x : list value) (cond : list bool) : list value :=
  zip_with where_ (if forallb id cond then x else as_float64 x) cond.

Definition is_text (v : value) : bool :=
  match v with VStr _ => true | _ => false end.

(** The column is held as double-precision numbers: it has no text and has
    a missing value. *)
Definition floating (col : list value) : bool :=
  forallb (λ v, negb (is_text v)) col && existsb isna col.

(** ** The libraries *)

(** What the parser of pandas makes of a text: no number, an integer, or
    another number (a fraction, an infinity). *)
Inductive parsed :=
  | NotNumber
  | Integer (z : Z)
  | OtherNumber.

Record Library := {
  (* [pd.to_numeric] on a text that is not a plain run of decimal digits
     (signs, blanks, exponents, ...) *)
  numeric_text : string → parsed;
  (* [str(x)] for the double-precision number [x] of integer value [z],
     as in [1.0] and [1e+16] *)
  float_text : Z → string;
  (* the message of the [ValueError] with which [plt.hist(mins, bins=25)]
     refuses the data, if it does *)
  histogram_error : list value → option string;
}.

(** ** Counting

    pandas counts the occurrences of keys with a hash table that keeps the
    keys in order of first appearance; [tally] adds up a weight per key in
    that order. *)

Section tally.
Context {K : Type} `{EqDecision K}.

Fixpoint bump (k : K) (n : Z) (acc : list (K * Z)) : list (K * Z) :=
  match acc with
  | [] => [(k, n)]
  | (k', m) :: acc' =>
      if decide (k = k') then (k', (m + n)%Z) :: acc'
      else (k', m) :: bump k n acc'
  end.

Definition tally (l : list (K * Z)) : list (K * Z) :=
  foldl (λ acc kn, bump kn.1 kn.2 acc) [] l.

Fixpoint assoc (k : K) (l : list (K * Z)) : option Z :=
  match l with
  | [] => None
  | (k', n) :: l' => if decide (k = k') then Some n else assoc k l'
  end.

Definition sum_counts (l : list (K * Z)) : Z := foldr (λ kn s, (kn.2 + s)%Z) 0%Z l.

(** The weights of the occurrences of [k] in [l], added up. *)
Definition weight (k : K) (l : list (K * Z)) : Z :=
  sum_counts (filter (λ kn, kn.1 = k) l).
End tally.

(** Order of the labels of an axis.  pandas compares labels of one kind;
    every axis sorted by the script holds integers only or texts only. *)
Definition value_le (a b : value) : Prop :=
  match a, b with
  | VNum x, VNum y => (x ≤ y)%Z
  | VNum _, _ => True
  | VStr _, VNum _ => False
  | VStr s, VStr t => String.le s t
  | VStr _, VNA => True
  | VNA, VNA => True
  | VNA, _ => False
  end.

Global Instance value_le_dec : RelDecision value_le.
Proof. intros [s|x|] [t|y|]; simpl; apply _. Defined.

(** Descending order of the counts. *)
Definition count_ge {K : Type} (a b : K * Z) : Prop := (b.2 ≤ a.2)%Z.

Global Instance count_ge_dec {K : Type} : RelDecision (@count_ge K).
Proof. intros a b. unfold count_ge. apply _. Defined.

Definition key_le (a b : value * Z) : Prop := value_le a.1 b.1.

Global Instance key_le_dec : RelDecision key_le.
Proof. intros a b. unfold key_le. apply _. Defined.

(** [col.dropna()] *)
Definition dropna_col (col : list value) : list value := filter (λ v, notna v) col.

(** Sorting by descending count; among equal counts the order of the input
    is kept. *)
Fixpoint insert_count {K : Type} (x : K * Z) (l : list (K * Z)) : list (K * Z) :=
  match l with
  | [] => [x]
  | y :: l' => if (x.2 <? y.2)%Z then y :: insert_count x l' else x :: l
  end.

Definition sort_counts {K : Type} (l : list (K * Z)) : list (K * Z) :=
  foldr insert_count [] l.

(** [col.value_counts(dropna=...)]: the counts per distinct value, most
    frequent first, values of equal count in order of first appearance. *)
Definition value_counts (dropna : bool) (col : list value) : list (value * Z) :=
  let col := if dropna then dropna_col col else col in
  sort_counts (tally ((λ v, (v, 1%Z)) <$> col)).

(** [col.nunique()] *)
Definition nunique (col : list value) : nat :=
  length (remove_dups (dropna_col col)).

(** [groupby(key).size().sort_index()] on the key column. *)
Definition groupby_size (keys : list value) : list (value * Z) :=
  merge_sort key_le (tally ((λ v, (v, 1%Z)) <$> dropna_col keys)).

(** ** Tables *)

Record DataFrame := {
  nrows : nat;                         (* [len(df)] *)
  columns : gmap string (list value);  (* label -> column *)
}.


Inductive exn :=
  | FileNotFoundError (msg : string)
  | KeyError (key : string)
  | ValueError (arg : string)
  | TypeError (msg : string)
  | IndexError.

(** Raising and propagating exceptions. *)
Global Instance exn_ret : MRet (sum exn) := λ A x, inr x.

Global Instance exn_bind : MBind (sum exn) := λ A B f m,
  match m with
  | inl e => inl e
  | inr x => f x
  end.

(** [name in df.columns] *)
Definition has_column (name : string) (df : DataFrame) : bool :=
  bool_decide (is_Some (columns df !! name)).

(** [df[name]] *)
Definition getitem (name : string) (df : DataFrame) : exn + list value :=
  match columns df !! name with
  | Some col => inr col
  | None => inl (KeyError name)
  end.

(** [df[name] = col] *)
Definition setitem (name : string) (col : list value) (df : DataFrame) : DataFrame :=
  {| nrows := nrows df; columns := <[name := col]> (columns df) |}.

(** [df[name] = v] for a scalar [v], repeated on every row. *)
Definition setitem_scalar (name : string) (v : value) (df : DataFrame) : DataFrame :=
  setitem name (replicate (nrows df) v) df.

(** The rows of a column selected by a boolean mask. *)
Definition select {A : Type} (mask : list bool) (col : list A) : list A :=
  (filter (λ bv, bv.1 = true) (zip mask col)).*2.

Definition select_rows (mask : list bool) (df : DataFrame) : DataFrame :=
  {| nrows := length (filter (λ b, b = true) (take (nrows df) mask));
     columns := select mask <$> columns df |}.

(** [df.dropna(subset=[name])]; the script calls it on a column that is
    there. *)
Definition dropna (name : string) (df : DataFrame) : DataFrame :=
  match columns df !! name with
  | Some col => select_rows (notna <$> col) df
  | None => df
  end.

(** ** The pivot table *)

Record Pivot := {
  pivot_columns : list value;          (* column labels *)
  pivot_rows : list (value * list Z);  (* row label, entries of the row *)
}.

(** The grouping and spreading steps of [pivot_table] on the rows
    [((index, column), value)]: group the rows by the two keys (rows with a
    missing key are left out), count the cells of the value column that are
    not missing, and spread the second key over the columns, filling the
    combinations that have no group. *)
Definition pivot_of (fill_value : Z) (rows : list (value * value * value)) : Pivot :=
  let recs := filter (λ r, notna r.1.1 && notna r.1.2 = true) rows in
  let agged := tally ((λ r, (r.1, if notna r.2 then 1%Z else 0%Z)) <$> recs) in
  let row_labels := merge_sort value_le (remove_dups (agged.*1.*1)) in
  let col_labels := merge_sort value_le (remove_dups (agged.*1.*2)) in
  {| pivot_columns := col_labels;
     pivot_rows :=
       (λ y, (y, (λ c, default fill_value (assoc (y, c) agged)) <$> col_labels))
         <$> row_labels |}.

(** [df.pivot_table(index=.., columns=.., values=.., aggfunc="count",
    fill_value=..)]; the column [values] is looked up first. *)
Definition pivot_table (index cols values : string) (fill_value : Z)
    (df : DataFrame) : exn + Pivot :=
  vs ← getitem values df;
  ys ← getitem index df;
  cs ← getitem cols df;
  inr (pivot_of fill_value (zip (zip ys cs) vs)).

Definition row_le (a b : value * list Z) : Prop := value_le a.1 b.1.

Global Instance row_le_dec : RelDecision row_le.
Proof. intros a b. unfold row_le. apply _. Defined.

(** [pivot.sort_index()] *)
Definition sort_index (p : Pivot) : Pivot :=
  {| pivot_columns := pivot_columns p;
     pivot_rows := merge_sort row_le (pivot_rows p) |}.

(** [pivot.plot(...)]: pandas refuses to plot a frame without columns. *)
Definition plot_frame (p : Pivot) : exn + unit :=
  match pivot_columns p with
  | [] => inl (TypeError "no numeric data to plot")
  | _ :: _ => inr ()
  end.

(** ** The workbook and the output directory *)

Record Sheet := {
  sheet_nrows : nat;
  sheet_columns : list (string * list value);  (* header label, column *)
}.

(** [xls.sheet_names] *)
Definition sheet_names (xls : list (string * Sheet)) : list string := xls.*1.

(** [pd.read_excel(excel_path, sheet_name=name)]; a name that is not a
    sheet of the file is refused. *)
Fixpoint read_excel (xls : list (string * Sheet)) (name : string) : exn + Sheet :=
  match xls with
  | [] => inl (ValueError name)
  | (n, sh) :: rest => if decide (n = name) then inr sh else read_excel rest name
  end.

Definition preferred : list string :=
  ["netflix_titles"; "titles"; "sheet1"; "Sheet1"].

(** The [for name in preferred] loop of [pick_title_sheet]; [None] when the
    loop ends without returning. *)
Fixpoint pick_preferred (xls : list (string * Sheet)) (names : list string)
    : option (exn + Sheet) :=
  match names with
  | [] => None
  | name :: rest =>
      if bool_decide (name ∈ sheet_names xls) then Some (read_excel xls name)
      else pick_preferred xls rest
  end.

Definition pick_title_sheet (xls : list (string * Sheet)) : exn + Sheet :=
  match pick_preferred xls preferred with
  | Some r => r
  | None =>
      match sheet_names xls with
      | first :: _ => read_excel xls first
      | [] => inl IndexError
      end
  end.

Inductive artifact :=
  | CountByTypeCsv (rows : list (value * Z))     (* columns [type], [count] *)
  | YearByTypeChart (pivot : Pivot)
  | YearChart (counts : list (value * Z))
  | RatingsChart (bars : list (value * Z))
  | DurationHist (mins : list value)
  | SummaryTxt (rows : nat) (unique_titles : option nat)
               (by_type : option (list (value * Z))).

(** A run of the script: it may write files into the output directory and
    may stop with an exception, keeping what was written before. *)
Definition M (A : Type) : Type :=
  gmap string artifact → (exn + A) * gmap string artifact.

Global Instance M_ret : MRet M := λ A x out, (inr x, out).

Global Instance M_bind : MBind M := λ A B f m out,
  match m out with
  | (inl e, out') => (inl e, out')
  | (inr x, out') => f x out'
  end.

Definition raise {A : Type} (e : exn) : M A := λ out, (inl e, out).

Definition lift {A : Type} (r : exn + A) : M A := λ out, (r, out).

(** Writing [OUT_DIR / name] creates the file or replaces its contents. *)
Definition write_file (name : string) (a : artifact) : M unit :=
  λ out, (inr (), <[name := a]> out).

Record World := {
  HERE : string;                               (* directory of the script *)
  workbook : option (list (string * Sheet));   (* [None]: DATA_FILE is missing *)
}.

Definition DATA_FILE_name : string := "netflix_titles.xlsx".

Definition newline : string := String "010"%char EmptyString.

Definition not_found_message (w : World) : string :=
  "Could not find " +:+ DATA_FILE_name +:+ " in:" +:+ newline +:+ HERE w +:+ newline
  +:+ "Put netflix_titles.xlsx in the same folder as this script.".

(** ** The script *)

Section script.
Variable lib : Library.

(** The number [pd.to_numeric(col, errors="coerce")] reads from one cell.
    Numbers that are not integers are not followed: the properties that
    depend on the numbers of a column assume that it has none
    ([exact_number]). *)
Definition to_numeric (v : value) : value :=
  match v with
  | VNum z => VNum z
  | VStr s =>
      if Str.is_decimal s then VNum (Str.decimal s)
      else match numeric_text lib s with
           | Integer z => VNum z
           | NotNumber | OtherNumber => VNA
           end
  | VNA => VNA
  end.

(** [pd.to_numeric(col, errors="coerce")]: the result is a column of 64-bit
    integers when every cell is read as one, and of double-precision numbers
    otherwise.  (Integers from 2^63 on, which pandas holds unsigned when it
    can, are taken as double-precision.) *)
Definition to_numeric_col (col : list value) : list value :=
  let parsed := to_numeric <$> col in
  if forallb int64_ok parsed then parsed else as_float64 parsed.

(** [str(x)] for a cell [x] of a column that is held as double-precision
    numbers ([fl]) or is not. *)
Definition cell_text (fl : bool) (v : value) : string :=
  match v with
  | VNum z => if fl then float_text lib z else astype_str v
  | _ => astype_str v
  end.

(** [col.astype(str)]: in a column of double-precision numbers a number is
    printed as one; a missing value becomes the text [nan]. *)
Definition astype_str_col (col : list value) : list string :=
  cell_text (floating col) <$> col.

(** [df.columns = [c.strip().lower().replace(" ", "_") for c in df.columns]] *)
Definition standardize_label (c : string) : string :=
  Str.replace " " "_" (Str.lower (Str.strip c)).

Definition standardize (sh : Sheet) : DataFrame :=
  {| nrows := sheet_nrows sh;
     columns := list_to_map (prod_map standardize_label id <$> sheet_columns sh) |}.

(** Lines 54-58: the duration columns derived from the text column [d]. *)
Definition derive_duration (d : list value) (df : DataFrame) : DataFrame :=
  let dur := VStr <$> astype_str_col d in
  let number := to_numeric_col (str_extract Str.is_digit <$> dur) in
  let df := setitem "duration_number" number df in
  let unit := str_lower <$> (str_extract Str.is_alpha <$> dur) in
  let df := setitem "duration_unit" unit df in
  let df := setitem "duration_minutes"
              (where_col number (str_contains "min" <$> unit)) df in
  setitem "duration_seasons"
    (where_col number (str_contains "season" <$> unit)) df.

(** Lines 60-63. *)
Definition fill_duration (df : DataFrame) : DataFrame :=
  let df := if has_column "duration_minutes" df then df
            else setitem_scalar "duration_minutes" VNA df in
  if has_column "duration_seasons" df then df
  else setitem_scalar "duration_seasons" VNA df.

(** Lines 53-63. *)
Definition parse_duration (df : DataFrame) : DataFrame :=
  match columns df !! "duration" with
  | Some d =>
      if negb (has_column "duration_minutes" df)
         && negb (has_column "duration_seasons" df)
      then derive_duration d df
      else fill_duration df
  | None => fill_duration df
  end.

(** Lines 65-66. *)
Definition strip_type (df : DataFrame) : DataFrame :=
  match columns df !! "type" with
  | Some ty => setitem "type" ((λ t, VStr (Str.strip t)) <$> astype_str_col ty) df
  | None => df
  end.

Definition normalize (sh : Sheet) : DataFrame :=
  strip_type (parse_duration (standardize sh)).

(** Lines 69-71. *)
Definition summary_table (df : DataFrame) : M unit :=
  match columns df !! "type" with
  | Some ty => write_file "count_by_type.csv" (CountByTypeCsv (value_counts false ty))
  | None => mret ()
  end.

(** Lines 75-78. *)
Definition parseable_years (df : DataFrame) : DataFrame :=
  let tmp := dropna "release_year" df in
  let tmp := {| nrows := nrows tmp;
                columns := alter to_numeric_col "release_year" (columns tmp) |} in
  let tmp := dropna "release_year" tmp in
  {| nrows := nrows tmp;
     columns := alter (fmap astype_int) "release_year" (columns tmp) |}.

(** Lines 74-101. *)
Definition chart_by_year (df : DataFrame) : M unit :=
  if has_column "release_year" df then
    let tmp := parseable_years df in
    if has_column "type" tmp then
      pivot ← lift (pivot_table "release_year" "type" "title" 0 tmp);
      let pivot := sort_index pivot in
      lift (plot_frame pivot);;
      write_file "titles_by_year_by_type.png" (YearByTypeChart pivot)
    else
      years ← lift (getitem "release_year" tmp);
      write_file "titles_by_year.png" (YearChart (groupby_size years))
  else mret ().

(** Lines 104-113. *)
Definition chart_ratings (df : DataFrame) : M unit :=
  match columns df !! "rating" with
  | Some r =>
      let ratings :=
        dropna_col ((λ t, if decide (t = "nan") then VNA else VStr t)
                      <$> astype_str_col r) in
      let top := take 10 (value_counts true ratings) in
      write_file "top_10_ratings.png" (RatingsChart (reverse top))
  | None => mret ()
  end.

(** Lines 116-125; when the histogram is refused nothing is saved. *)
Definition chart_durations (df : DataFrame) : M unit :=
  col ← lift (getitem "duration_minutes" df);
  let mins := dropna_col (to_numeric_col col) in
  if bool_decide (0 < length mins) then
    match histogram_error lib mins with
    | Some msg => raise (ValueError msg)
    | None => write_file "movie_duration_hist.png" (DurationHist mins)
    end
  else mret ().

(** Lines 128-136. *)
Definition text_summary (df : DataFrame) : M unit :=
  write_file "summary.txt"
    (SummaryTxt (nrows df)
                (nunique <$> columns df !! "title")
                (value_counts false <$> columns df !! "type")).

Definition main (w : World) : M unit :=
  match workbook w with
  | None => raise (FileNotFoundError (not_found_message w))
  | Some xls =>
      sheet ← lift (pick_title_sheet xls);
      let df := normalize sheet in
      summary_table df;;
      chart_by_year df;;
      chart_ratings df;;
      chart_durations df;;
      text_summary df
  end.
End script.

(** ** Vocabulary of the properties *)



(** A cell is populated when it is not missing. *)
Definition populated (v : value) : Prop := v ≠ VNA.

(** The cell of column [name] on row [i]. *)
Definition cell (df : DataFrame) (name : string) (i : nat) : option value :=
  columns df !! name ≫= (.!! i).

(** The claim that no record has both duration fields populated. *)
Definition at_most_one_duration (df : DataFrame) : Prop :=
  ∀ i m s,
    cell df "duration_minutes" i = Some m →
    cell df "duration_seasons" i = Some s →
    ¬ (populated m ∧ populated s).

(** The records of a table, restricted to the year, type and title columns:
    the cells of the three columns paired row by row. *)
Definition records (years types titles : list value) : list (value * value * value) :=
  zip (zip years types) titles.

(** The files written one after the other into the output directory. *)
Definition apply_writes (ws : list (string * artifact))
    (out : gmap string artifact) : gmap string artifact :=
  foldl (λ o w, <[w.1 := w.2]> o) out ws.

(** The run [m] ends with [r] after the writes [ws], whatever the output
    directory held before. *)
Definition run_of {A : Type} (m : M A) (r : exn + A) (ws : list (string * artifact)) : Prop :=
  ∀ out, m out = (r, apply_writes ws out).

(** [r] is not the missing-file failure. *)
Definition file_found {A : Type} (r : exn + A) : Prop :=
  ∀ msg, r ≠ inl (FileNotFoundError msg).

(** The run [m] does not depend on what the output directory held before,
    and does not fail for a missing file. *)
Definition steady {A : Type} (m : M A) : Prop :=
  ∃ r ws, run_of m r ws ∧ file_found r.

(** ** Sample inputs *)

(** A library whose parser reads nothing beyond plain digit runs, which
    prints a double-precision integer with the ending [.0], and whose
    histogram accepts all data. *)
Definition digits_only : Library :=
  {| numeric_text := λ _, NotNumber;
     float_text := λ z, pretty z +:+ ".0";
     histogram_error := λ _, None |}.

Definition one_sheet (sh : Sheet) : World :=
  {| HERE := "/home/user/netflix"; workbook := Some [("Sheet1", sh)] |}.

Definition durations_sheet : Sheet :=
  {| sheet_nrows := 4;
     sheet_columns :=
       [("Duration", [VStr "90 min"; VStr "3 Seasons"; VStr "TBA"; VNum 45])] |}.

Definition both_units_sheet : Sheet :=
  {| sheet_nrows := 1; sheet_columns := [("duration", [VStr "5 minseason"])] |}.

Definition preparsed_sheet : Sheet :=
  {| sheet_nrows := 2;
     sheet_columns :=
       [("duration", [VStr "90 min"; VStr "2 Seasons"]);
        ("Duration Minutes", [VStr "ninety"; VNA])] |}.

Definition sample_workbook : list (string * Sheet) :=
  [("notes", both_units_sheet); ("Sheet1", durations_sheet); ("titles", preparsed_sheet)].

Definition untitled_sheet : Sheet :=
  {| sheet_nrows := 1;
     sheet_columns := [("release_year", [VNum 2020]); ("type", [VStr "Movie"])] |}.

Definition catalog_sheet : Sheet :=
  {| sheet_nrows := 5;
     sheet_columns :=
       [("Title", [VStr "a"; VStr "b"; VNA; VStr "d"; VStr "e"]);
        (" Type ", [VStr "Movie"; VStr "TV Show "; VStr "Movie"; VNA; VStr "Movie"]);
        ("Release Year", [VNum 2020; VNum 2019; VStr "2020"; VStr "x"; VNA]);
        ("rating", [VStr "PG"; VNA; VStr "PG"; VStr "R"; VStr "R"])] |}.

(** ** Vocabulary of the further properties *)

(** The run [m] leaves every file whose name is not in [names] as it was. *)
Definition touches_only {A : Type} (names : list string) (m : M A) : Prop :=
  ∀ out name, name ∉ names → (m out).2 !! name = out !! name.

(** The six files of the output directory. *)
Definition output_files : list string :=
  ["count_by_type.csv"; "titles_by_year_by_type.png"; "titles_by_year.png";
   "top_10_ratings.png"; "movie_duration_hist.png"; "summary.txt"].

(** [s] occurs in [t] as a run of consecutive characters. *)
Definition occurs_in (s t : string) : Prop := ∃ pre post, t = pre +:+ s +:+ post.

(** [s] neither starts nor ends with a character that [strip] removes. *)
Definition trimmed (s : string) : Prop :=
  Str.lstrip s = s ∧ Str.rstrip s = s.

Definition years_sheet : Sheet :=
  {| sheet_nrows := 4;
     sheet_columns :=
       [("Title", [VStr "a"; VStr "b"; VStr "c"; VStr "d"]);
        ("Release Year", [VNum 2021; VStr "2019"; VStr "unknown"; VNum 2021])] |}.

(** ** Distinct labels, exact numbers, and two claims that fail *)

(** The labels of the sheet stay pairwise distinct when standardised, so
    that the table is a map from labels to columns. *)
Definition distinct_labels (sh : Sheet) : Prop :=
  NoDup (standardize_label <$> (sheet_columns sh).*1).

(** A cell whose number pandas holds exactly in every kind of column: an
    integer below 10^15 in absolute value, a run of at most 15 digits, or a
    text that the parser reads as an integer below 10^15 in absolute value.
    A missing cell and a text that is not read as a number qualify too; a
    text that is read as a fraction or an infinity does not. *)
Definition exact_number (lib : Library) (v : value) : Prop :=
  match v with
  | VStr s =>
      if Str.is_decimal s then (String.length s ≤ 15)%nat
      else match numeric_text lib s with
           | Integer z => (Z.abs z < 10 ^ 15)%Z
           | NotNumber => True
           | OtherNumber => False
           end
  | VNum z => (Z.abs z < 10 ^ 15)%Z
  | VNA => True
  end.

Global Instance exact_number_dec lib v : Decision (exact_number lib v).
Proof.
  destruct v as [s|z|]; simpl; [|apply _..].
  destruct (Str.is_decimal s); [apply _|]. destruct (numeric_text lib s); apply _.
Defined.


(** The cell [q] holds the number of the cell [v] after the conversions of
    its column to double precision: it is missing exactly when [v] is, and it
    is [v] when [v] is an integer below 2^53 in absolute value. *)
Definition held_as (v q : value) : Prop :=
  (q = VNA ↔ v = VNA) ∧ ∀ z, v = VNum z → (Z.abs z < 2 ^ 53)%Z → q = VNum z.






(** * Properties *)

(** ** Runs of characters *)

Section runs.
Variable p : ascii → bool.

Lemma app_cons c (s t : string) : String c s +:+ t = String c (s +:+ t).
Proof. reflexivity. Qed.

Lemma app_empty (t : string) : EmptyString +:+ t = t.
Proof. reflexivity. Qed.





End runs.




(** ** Numbers held in columns *)

Lemma round_f64_small z : (Z.abs z < 2 ^ 53)%Z → round_f64 z = z.
Proof.
  intros Hz. unfold round_f64.
  assert (Z.log2 (Z.abs z) - 52 ≤ 0)%Z as He.
  { destruct (decide (Z.abs z = 0%Z)) as [->|Hne]; [simpl; lia|].
    assert (Z.log2 (Z.abs z) < 53)%Z; [|lia]. apply Z.log2_lt_pow2; lia. }
  cbv zeta. by rewrite (proj2 (Z.leb_le _ _) He).
Qed.

Lemma held_as_refl v : held_as v v.
Proof. split; [done|by intros z ->]. Qed.

Lemma held_as_to_float v q : held_as v q → held_as v (to_float q).
Proof.
  intros [Hna Hnum]. split.
  - rewrite <- Hna. by destruct q.
  - intros z Hv Hz. rewrite (Hnum z Hv Hz). simpl. by rewrite round_f64_small.
Qed.

Lemma to_numeric_col_lookup lib col i v :
  col !! i = Some v →
  ∃ q, to_numeric_col lib col !! i = Some q ∧ held_as (to_numeric lib v) q.
Proof.
  intros Hv. unfold to_numeric_col, as_float64.
  destruct (forallb int64_ok _).
  - exists (to_numeric lib v). rewrite list_lookup_fmap, Hv. split; [done|].
    apply held_as_refl.
  - exists (to_float (to_numeric lib v)). rewrite !list_lookup_fmap, Hv. split; [done|].
    apply held_as_to_float, held_as_refl.
Qed.

Lemma to_numeric_col_length lib col : length (to_numeric_col lib col) = length col.
Proof.
  unfold to_numeric_col, as_float64.
  destruct (forallb int64_ok _); by rewrite ?length_fmap.
Qed.

Lemma where_col_lookup x cond i q b :
  x !! i = Some q → cond !! i = Some b →
  ∃ q', where_col x cond !! i = Some (where_ q' b) ∧ held_as q q'.
Proof.
  intros Hq Hb. unfold where_col, as_float64. destruct (forallb id cond).
  - exists q. rewrite lookup_zip_with, Hq. simpl. rewrite Hb. split; [done|].
    apply held_as_refl.
  - exists (to_float q). rewrite lookup_zip_with, list_lookup_fmap, Hq. simpl.
    rewrite Hb. split; [done|]. apply held_as_to_float, held_as_refl.
Qed.

Lemma where_col_length x cond :
  length (where_col x cond) = (length x `min` length cond)%nat.
Proof.
  unfold where_col, as_float64. rewrite length_zip_with.
  destruct (forallb id cond); by rewrite ?length_fmap.
Qed.

Lemma held_as_trans v q q' : held_as v q → held_as q q' → held_as v q'.
Proof.
  intros [Hna Hnum] [Hna' Hnum']. split; [by rewrite Hna', Hna|].
  intros z Hv Hz. apply Hnum'; [by apply Hnum|done].
Qed.


Lemma astype_str_col_length lib col : length (astype_str_col lib col) = length col.
Proof. unfold astype_str_col. by rewrite length_fmap. Qed.

(** ** Columns of the normalized table *)

Lemma has_column_true name df :
  has_column name df = true ↔ is_Some (columns df !! name).
Proof. unfold has_column. apply bool_decide_eq_true. Qed.

Lemma has_column_false name df :
  has_column name df = false ↔ columns df !! name = None.
Proof.
  unfold has_column. rewrite bool_decide_eq_false. symmetry. apply eq_None_not_Some.
Qed.



(** The cells of the derived columns on the row of the duration text [t]. *)
Lemma derive_duration_cells lib d df i t :
  astype_str_col lib d !! i = Some t →
  let number := to_numeric lib (str_extract Str.is_digit (VStr t)) in
  let unit := str_lower (str_extract Str.is_alpha (VStr t)) in
  cell (derive_duration lib d df) "duration_unit" i = Some unit ∧
  (∃ q, cell (derive_duration lib d df) "duration_number" i = Some q ∧
        held_as number q) ∧
  (∃ q, cell (derive_duration lib d df) "duration_minutes" i
          = Some (where_ q (str_contains "min" unit)) ∧ held_as number q) ∧
  (∃ q, cell (derive_duration lib d df) "duration_seasons" i
          = Some (where_ q (str_contains "season" unit)) ∧ held_as number q).
Proof.
  intros Ht number unit.
  set (dur := VStr <$> astype_str_col lib d).
  set (digits := str_extract Str.is_digit <$> dur).
  set (units := str_lower <$> (str_extract Str.is_alpha <$> dur)).
  assert (digits !! i = Some (str_extract Str.is_digit (VStr t))) as Hdigits
    by (unfold digits, dur; by rewrite !list_lookup_fmap, Ht).
  assert (units !! i = Some unit) as Hunit
    by (unfold units, dur; by rewrite !list_lookup_fmap, Ht).
  destruct (to_numeric_col_lookup lib _ _ _ Hdigits) as (q & Hq & Hheld).
  fold number in Hheld.
  assert (∀ pat, ∃ q',
    where_col (to_numeric_col lib digits) (str_contains pat <$> units) !! i
      = Some (where_ q' (str_contains pat unit)) ∧ held_as number q') as Hwhere.
  { intros pat.
    destruct (where_col_lookup _ (str_contains pat <$> units) i q (str_contains pat unit) Hq)
      as (q' & Hq' & Hheld'); [by rewrite list_lookup_fmap, Hunit|].
    exists q'. split; [done|]. by eapply held_as_trans. }
  unfold cell, derive_duration, setitem. cbn [columns].
  fold dur. fold digits. fold units. split_and!.
  - by rewrite lookup_insert_ne, lookup_insert_ne, lookup_insert_eq by done.
  - exists q. by rewrite !lookup_insert_ne, lookup_insert_eq by done.
  - destruct (Hwhere "min") as (q' & Hq' & Hheld'). exists q'.
    by rewrite lookup_insert_ne, lookup_insert_eq by done.
  - destruct (Hwhere "season") as (q' & Hq' & Hheld'). exists q'.
    by rewrite lookup_insert_eq.
Qed.

(** The derived columns have one cell per cell of the duration column. *)
Lemma derive_duration_lengths lib d df name col :
  name ∈ ["duration_number"; "duration_unit"; "duration_minutes"; "duration_seasons"] →
  columns (derive_duration lib d df) !! name = Some col →
  length col = length d.
Proof.
  intros Hname. unfold derive_duration, setitem. cbn [columns].
  rewrite !elem_of_cons in Hname.
  destruct Hname as [-> | [-> | [-> | [-> | Hname]]]];
    [| | | |by apply elem_of_nil in Hname];
    rewrite ?lookup_insert_ne by done; rewrite lookup_insert_eq; intros [= <-];
    rewrite ?where_col_length, ?to_numeric_col_length, ?length_fmap,
      ?astype_str_col_length; lia.
Qed.

Lemma has_column_setitem name name' col df :
  has_column name (setitem name' col df)
  = bool_decide (name' = name) || has_column name df.
Proof.
  unfold has_column, setitem. simpl. rewrite lookup_insert.
  case_decide as Heq.
  - by rewrite (bool_decide_eq_true_2 _ Heq).
  - by rewrite (bool_decide_eq_false_2 _ Heq).
Qed.

(** The two shapes of the result of lines 60-63. *)
Lemma fill_duration_columns df :
  columns (fill_duration df) =
    let cs := if has_column "duration_minutes" df then columns df
              else <["duration_minutes" := replicate (nrows df) VNA]> (columns df) in
    if has_column "duration_seasons" df then cs
    else <["duration_seasons" := replicate (nrows df) VNA]> cs.
Proof.
  unfold fill_duration, setitem_scalar.
  destruct (has_column "duration_minutes" df) eqn:Hm; simpl.
  - by destruct (has_column "duration_seasons" df).
  - rewrite has_column_setitem, bool_decide_eq_false_2 by done. simpl.
    by destruct (has_column "duration_seasons" df).
Qed.

Lemma fill_duration_old name col df :
  columns df !! name = Some col → columns (fill_duration df) !! name = Some col.
Proof.
  intros Hcol. rewrite fill_duration_columns.
  destruct (has_column "duration_minutes" df) eqn:Hm;
    destruct (has_column "duration_seasons" df) eqn:Hs; simpl;
    rewrite ?has_column_false in *; rewrite ?lookup_insert;
    repeat case_decide; congruence.
Qed.

Lemma fill_duration_new (name : string) df :
  columns df !! name = None →
  columns (fill_duration df) !! name =
    if decide (name = "duration_minutes" ∨ name = "duration_seasons")
    then Some (replicate (nrows df) VNA) else None.
Proof.
  intros Hcol. rewrite fill_duration_columns.
  destruct (has_column "duration_minutes" df) eqn:Hm;
    destruct (has_column "duration_seasons" df) eqn:Hs; simpl;
    rewrite ?has_column_true, ?has_column_false in *; rewrite ?lookup_insert;
    repeat case_decide; subst;
    repeat match goal with
      | H : is_Some _ |- _ => destruct H as [? H]
      | H : _ ∨ _ |- _ => destruct H
      end; try congruence; tauto.
Qed.

Lemma derive_duration_columns lib d df :
  is_Some (columns (derive_duration lib d df) !! "duration_minutes") ∧
  is_Some (columns (derive_duration lib d df) !! "duration_seasons").
Proof.
  unfold derive_duration, setitem. simpl. split.
  - rewrite lookup_insert_ne, lookup_insert_eq by done. eauto.
  - rewrite lookup_insert_eq. eauto.
Qed.

Lemma strip_type_other lib name df :
  name ≠ "type" → columns (strip_type lib df) !! name = columns df !! name.
Proof.
  intros Hne. unfold strip_type. destruct (columns df !! "type"); [|done].
  simpl. by rewrite lookup_insert_ne.
Qed.

Lemma strip_type_type lib df :
  columns (strip_type lib df) !! "type"
  = (λ ty, (λ t, VStr (Str.strip t)) <$> astype_str_col lib ty) <$> columns df !! "type".
Proof.
  unfold strip_type. destruct (columns df !! "type") eqn:Hty; [|by rewrite Hty].
  simpl. by rewrite lookup_insert_eq.
Qed.


Lemma fill_duration_nrows df : nrows (fill_duration df) = nrows df.
Proof.
  unfold fill_duration.
  destruct (has_column "duration_minutes" df); simpl;
    by destruct (has_column "duration_seasons" _).
Qed.

Lemma parse_duration_nrows lib df : nrows (parse_duration lib df) = nrows df.
Proof.
  unfold parse_duration.
  destruct (columns df !! "duration"); [|apply fill_duration_nrows].
  destruct (_ && _); [done|apply fill_duration_nrows].
Qed.


Lemma normalize_cell lib sh name i :
  name ≠ "type" →
  cell (normalize lib sh) name i = cell (parse_duration lib (standardize sh)) name i.
Proof. intros Hne. unfold cell, normalize. by rewrite strip_type_other. Qed.

(** Lines 53-63 never touch a column other than the four duration columns. *)
Lemma parse_duration_other lib (name : string) df :
  name ∉ ["duration_number"; "duration_unit"; "duration_minutes"; "duration_seasons"] →
  columns (parse_duration lib df) !! name = columns df !! name.
Proof.
  intros Hname. rewrite !not_elem_of_cons in Hname.
  destruct Hname as (? & ? & ? & ? & _). unfold parse_duration.
  assert (columns (fill_duration df) !! name = columns df !! name) as Hfill.
  { destruct (columns df !! name) eqn:Hcol; [by eapply fill_duration_old|].
    rewrite fill_duration_new by done. rewrite decide_False; [done|]. tauto. }
  destruct (columns df !! "duration"); [|done].
  destruct (_ && _); [|done].
  unfold derive_duration, setitem. simpl. by rewrite !lookup_insert_ne.
Qed.

(** ** Duration derivation *)

Lemma parse_duration_derives lib df d :
  columns df !! "duration" = Some d →
  has_column "duration_minutes" df = false →
  has_column "duration_seasons" df = false →
  parse_duration lib df = derive_duration lib d df.
Proof. intros Hd Hm Hs. unfold parse_duration. by rewrite Hd, Hm, Hs. Qed.

Lemma digit_value_range c :
  Str.is_digit c = true → (0 ≤ Str.digit_value c ≤ 9)%Z.
Proof.
  unfold Str.is_digit, Str.in_range, Str.digit_value.
  intros [?%N.leb_le ?%N.leb_le]%andb_prop. lia.
Qed.

Lemma decimal_from_bounds acc s :
  Str.forallb Str.is_digit s = true → (0 ≤ acc)%Z →
  (acc * 10 ^ Z.of_nat (String.length s) ≤ Str.decimal_from acc s
   < (acc + 1) * 10 ^ Z.of_nat (String.length s))%Z.
Proof.
  revert acc. induction s as [|c s IH]; intros acc Hall Hacc.
  - simpl. lia.
  - simpl in Hall. apply andb_prop in Hall as [Hc Hall].
    pose proof (digit_value_range c Hc) as Hd.
    cbn [Str.decimal_from String.length].
    specialize (IH (10 * acc + Str.digit_value c)%Z Hall ltac:(lia)).
    rewrite Nat2Z.inj_succ, Z.pow_succ_r by lia.
    assert (0 < 10 ^ Z.of_nat (String.length s))%Z by (apply Z.pow_pos_nonneg; lia).
    nia.
Qed.

(** A run of at most 15 digits is a number that every column holds
    exactly. *)
Lemma decimal_short r :
  Str.forallb Str.is_digit r = true → (String.length r ≤ 15)%nat →
  (Z.abs (Str.decimal r) < 10 ^ 15)%Z.
Proof.
  intros Hall Hlen.
  pose proof (decimal_from_bounds 0 r Hall ltac:(lia)) as Hb. fold (Str.decimal r) in Hb.
  assert (10 ^ Z.of_nat (String.length r) ≤ 10 ^ 15)%Z
    by (apply Z.pow_le_mono_r; lia).
  lia.
Qed.

Lemma held_as_exact z q : held_as (VNum z) q → (Z.abs z < 10 ^ 15)%Z → q = VNum z.
Proof. intros [_ Hnum] Hz. apply Hnum; [done|lia]. Qed.

Lemma held_as_missing q : held_as VNA q → q = VNA.
Proof. intros [Hna _]. by apply Hna. Qed.




(** C1, as stated, fails: a record whose unit token contains both [min] and
    [season] has both duration fields populated. *)
Lemma both_durations_populated :
  ¬ at_most_one_duration (normalize digits_only both_units_sheet).
Proof.
  intros Hone. apply (Hone 0 (VNum 5) (VNum 5)); [reflexivity..|].
  split; discriminate.
Qed.

(** C1, amended.  When no duration column pre-exists, a record has both
    [duration_minutes] and [duration_seasons] populated only if its unit
    token contains both [min] and [season]; and when the token contains
    neither, both fields are missing. *)
Theorem duration_fields_by_unit (lib : Library) (sh : Sheet) i m s :
  has_column "duration_minutes" (standardize sh) = false →
  has_column "duration_seasons" (standardize sh) = false →
  cell (normalize lib sh) "duration_minutes" i = Some m →
  cell (normalize lib sh) "duration_seasons" i = Some s →
  (populated m ∧ populated s →
   ∃ u, cell (normalize lib sh) "duration_unit" i = Some u ∧
        str_contains "min" u = true ∧ str_contains "season" u = true) ∧
  (∀ u, cell (normalize lib sh) "duration_unit" i = Some u →
        str_contains "min" u = false → str_contains "season" u = false →
        m = VNA ∧ s = VNA).
Proof.
  intros Hm Hs. rewrite !normalize_cell by done.
  set (df := standardize sh) in *.
  destruct (columns df !! "duration") as [d|] eqn:Hd.
  - rewrite (parse_duration_derives _ _ _ Hd Hm Hs). unfold cell at 1 2.
    destruct (derive_duration_columns lib d df) as [[cm Hcm] [cs Hcs]].
    rewrite Hcm, Hcs. simpl. intros Him His.
    assert (is_Some (astype_str_col lib d !! i)) as [t Ht].
    { apply lookup_lt_is_Some. rewrite astype_str_col_length.
      apply lookup_lt_Some in Him.
      rewrite (derive_duration_lengths lib d df "duration_minutes" cm) in Him;
        [done| |done].
      rewrite !elem_of_cons. tauto. }
    destruct (derive_duration_cells lib d df i t Ht)
      as (Hu & _ & (qm & Hmin & _) & (qs & Hsea & _)).
    unfold cell in Hmin, Hsea. rewrite Hcm in Hmin. rewrite Hcs in Hsea.
    simpl in Hmin, Hsea. rewrite Hmin in Him. rewrite Hsea in His.
    injection Him as <-. injection His as <-. rewrite Hu. split.
    + intros [Hpm Hps]. eexists. split; [done|]. unfold populated, where_ in *.
      split; [by destruct (str_contains "min" _)|by destruct (str_contains "season" _)].
    + intros u [= <-] -> ->. done.
  - unfold parse_duration. rewrite Hd.
    apply has_column_false in Hm, Hs. unfold cell.
    rewrite !fill_duration_new by done. simpl. intros Him His.
    apply lookup_replicate in Him as [-> _]. apply lookup_replicate in His as [-> _].
    split; [|done]. intros [Hpm _]. by destruct Hpm.
Qed.

Lemma duration_fields_by_unit_witness :
  ∃ u, cell (normalize digits_only both_units_sheet) "duration_unit" 0 = Some u ∧
       str_contains "min" u = true ∧ str_contains "season" u = true.
Proof.
  apply (duration_fields_by_unit digits_only both_units_sheet 0 (VNum 5) (VNum 5));
    [reflexivity..|]. split; discriminate.
Defined.

(** C4. When [duration_minutes] or [duration_seasons] is already a column,
    nothing is derived: every column of the table, the pre-existing duration
    columns included, is kept as it is, whatever it holds; the only column
    that may be added is the absent one of the two, filled with missing
    values; in particular no [duration_number] or [duration_unit] column is
    computed. *)
Theorem preexisting_duration_passes_through (lib : Library) (df : DataFrame) :
  has_column "duration_minutes" df = true ∨ has_column "duration_seasons" df = true →
  nrows (parse_duration lib df) = nrows df ∧
  (∀ name col,
     columns df !! name = Some col →
     columns (parse_duration lib df) !! name = Some col) ∧
  (∀ name : string,
     columns df !! name = None →
     columns (parse_duration lib df) !! name =
       if decide (name = "duration_minutes" ∨ name = "duration_seasons")
       then Some (replicate (nrows df) VNA) else None).
Proof.
  intros Hpre. split; [apply parse_duration_nrows|].
  assert (parse_duration lib df = fill_duration df) as ->.
  { unfold parse_duration. destruct (columns df !! "duration"); [|done].
    by destruct Hpre as [-> | ->]; rewrite ?andb_false_r. }
  split; [intros; by apply fill_duration_old|intros; by apply fill_duration_new].
Qed.

Lemma preexisting_duration_passes_through_witness :
  columns (parse_duration digits_only (standardize preparsed_sheet)) !! "duration_minutes"
    = Some [VStr "ninety"; VNA] ∧
  columns (parse_duration digits_only (standardize preparsed_sheet)) !! "duration_seasons"
    = Some [VNA; VNA] ∧
  columns (parse_duration digits_only (standardize preparsed_sheet)) !! "duration_number"
    = None.
Proof.
  destruct (preexisting_duration_passes_through digits_only (standardize preparsed_sheet))
    as (_ & Hold & Hnew); [left; reflexivity|].
  split_and!.
  - apply Hold. reflexivity.
  - rewrite Hnew; reflexivity.
  - rewrite Hnew; reflexivity.
Defined.




(** ** The loader *)

Lemma read_excel_listed xls name :
  name ∈ sheet_names xls → ∃ sh, read_excel xls name = inr sh ∧ (name, sh) ∈ xls.
Proof.
  unfold sheet_names. induction xls as [|[n sh] xls IH]; simpl.
  - by intros ?%elem_of_nil.
  - intros Hin. case_decide as Heq.
    + subst. exists sh. split; [done|]. apply elem_of_cons. by left.
    + apply elem_of_cons in Hin as [->|Hin]; [done|].
      destruct (IH Hin) as (sh' & Hread & Hsh). exists sh'. split; [done|].
      apply elem_of_cons. by right.
Qed.

Lemma read_excel_found xls name (r : exn + Sheet) :
  r = read_excel xls name → file_found r.
Proof.
  intros -> msg. induction xls as [|[n sh] xls IH]; simpl; [done|].
  by case_decide.
Qed.

Lemma pick_preferred_first xls pre name post :
  name ∈ sheet_names xls →
  (∀ m, m ∈ pre → m ∉ sheet_names xls) →
  pick_preferred xls (pre ++ name :: post) = Some (read_excel xls name).
Proof.
  intros Hin Hpre. induction pre as [|m pre IH]; simpl.
  - by rewrite bool_decide_eq_true_2.
  - rewrite bool_decide_eq_false_2 by (apply Hpre; by left).
    apply IH. intros m' Hm'. apply Hpre. by right.
Qed.

Lemma pick_preferred_none xls names :
  (∀ m, m ∈ names → m ∉ sheet_names xls) → pick_preferred xls names = None.
Proof.
  intros Hnames. induction names as [|m names IH]; simpl; [done|].
  rewrite bool_decide_eq_false_2 by (apply Hnames; by left).
  apply IH. intros m' Hm'. apply Hnames. by right.
Qed.

Lemma pick_title_sheet_found xls : file_found (pick_title_sheet xls).
Proof.
  unfold pick_title_sheet.
  destruct (pick_preferred xls preferred) as [r|] eqn:Hpick.
  - revert Hpick. generalize preferred.
    induction l as [|m names IH]; simpl; [done|].
    case_bool_decide; [|done]. intros [= <-]. by eapply read_excel_found.
  - destruct (sheet_names xls); [done|]. by eapply read_excel_found.
Qed.

(** C8. The candidate names are, in order of priority, [netflix_titles],
    [titles], [sheet1] and [Sheet1].  The loader returns the sheet named by
    the first candidate that is a sheet name of the file; when no candidate
    is a sheet name it returns the first sheet of the file. *)
Theorem pick_title_sheet_priority (xls : list (string * Sheet)) :
  preferred = ["netflix_titles"; "titles"; "sheet1"; "Sheet1"] ∧
  (∀ pre name post,
     preferred = pre ++ name :: post →
     name ∈ sheet_names xls →
     (∀ m, m ∈ pre → m ∉ sheet_names xls) →
     ∃ sh, pick_title_sheet xls = inr sh ∧ read_excel xls name = inr sh
           ∧ (name, sh) ∈ xls) ∧
  (∀ first sh rest,
     xls = (first, sh) :: rest →
     (∀ m, m ∈ preferred → m ∉ sheet_names xls) →
     pick_title_sheet xls = inr sh).
Proof.
  split; [done|]. split.
  - intros pre name post Hpref Hin Hpre.
    destruct (read_excel_listed xls name Hin) as (sh & Hread & Hsh).
    exists sh. split_and!; [|done..].
    unfold pick_title_sheet. rewrite Hpref.
    by rewrite (pick_preferred_first _ _ _ _ Hin Hpre).
  - intros first sh rest -> Hnone.
    unfold pick_title_sheet. rewrite (pick_preferred_none _ _ Hnone).
    simpl. by rewrite decide_True.
Qed.

Lemma pick_title_sheet_priority_witness :
  pick_title_sheet sample_workbook = inr preparsed_sheet.
Proof.
  destruct (proj1 (proj2 (pick_title_sheet_priority sample_workbook))
              ["netflix_titles"] "titles" ["sheet1"; "Sheet1"])
    as (sh & Hpick & Hread & _).
  - reflexivity.
  - unfold sample_workbook, sheet_names. simpl. set_solver.
  - intros m ->%list_elem_of_singleton. unfold sample_workbook, sheet_names. simpl.
    rewrite !not_elem_of_cons. split_and!; [done..|]. apply not_elem_of_nil.
  - rewrite Hpick, <- Hread. reflexivity.
Defined.

(** ** Runs and the output directory *)

Lemma apply_writes_app ws1 ws2 out :
  apply_writes (ws1 ++ ws2) out = apply_writes ws2 (apply_writes ws1 out).
Proof. unfold apply_writes. apply foldl_app. Qed.

Lemma steady_ret {A : Type} (x : A) : steady (mret x).
Proof. exists (inr x), []. split; [by intros out|by intros msg]. Qed.

Lemma steady_write name a : steady (write_file name a).
Proof. exists (inr ()), [(name, a)]. split; [by intros out|by intros msg]. Qed.

Lemma steady_lift {A : Type} (r : exn + A) : file_found r → steady (lift r).
Proof. intros Hr. exists r, []. split; [by intros out|done]. Qed.

Lemma steady_bind {A B : Type} (m : M A) (f : A → M B) :
  steady m → (∀ x, steady (f x)) → steady (m ≫= f).
Proof.
  intros (r & ws & Hm & Hr) Hf. destruct r as [e|x].
  - exists (inl e), ws. split.
    + intros out. unfold mbind, M_bind. by rewrite Hm.
    + intros msg [= ->]. by apply (Hr msg).
  - destruct (Hf x) as (r' & ws' & Hfx & Hr'). exists r', (ws ++ ws'). split; [|done].
    intros out. unfold mbind, M_bind. by rewrite Hm, Hfx, apply_writes_app.
Qed.

Lemma getitem_found name df : file_found (getitem name df).
Proof. intros msg. unfold getitem. by destruct (columns df !! name). Qed.

Lemma pivot_table_found index cols values fill df :
  file_found (pivot_table index cols values fill df).
Proof.
  intros msg. unfold pivot_table, getitem, mbind, exn_bind.
  destruct (columns df !! values); [|done].
  destruct (columns df !! index); [|done].
  by destruct (columns df !! cols).
Qed.

Lemma steady_raise {A : Type} (e : exn) :
  (∀ msg, e ≠ FileNotFoundError msg) → steady (raise (A := A) e).
Proof.
  intros He. exists (inl e), []. split; [by intros out|].
  intros msg [= ->]. by apply (He msg).
Qed.

Lemma steps_steady lib df :
  steady (summary_table df) ∧ steady (chart_by_year lib df) ∧
  steady (chart_ratings lib df) ∧ steady (chart_durations lib df) ∧
  steady (text_summary df).
Proof.
  split_and!.
  - unfold summary_table.
    destruct (columns df !! "type"); [apply steady_write|apply steady_ret].
  - unfold chart_by_year.
    destruct (has_column "release_year" df); [|apply steady_ret].
    destruct (has_column "type" _).
    + apply steady_bind; [apply steady_lift, pivot_table_found|].
      intros p. simpl. apply steady_bind; [|intros _; apply steady_write].
      apply steady_lift. intros msg. unfold plot_frame.
      by destruct (pivot_columns _).
    + apply steady_bind; [apply steady_lift, getitem_found|].
      intros p. apply steady_write.
  - unfold chart_ratings.
    destruct (columns df !! "rating"); [apply steady_write|apply steady_ret].
  - unfold chart_durations.
    apply steady_bind; [apply steady_lift, getitem_found|].
    intros col. simpl. case_bool_decide; [|apply steady_ret].
    destruct (histogram_error lib _); [by apply steady_raise|apply steady_write].
  - apply steady_write.
Qed.

Lemma main_steady lib w xls : workbook w = Some xls → steady (main lib w).
Proof.
  intros Hxls. unfold main. rewrite Hxls.
  apply steady_bind; [apply steady_lift, pick_title_sheet_found|].
  intros sheet. simpl.
  destruct (steps_steady lib (normalize lib sheet)) as (H1 & H2 & H3 & H4 & H5).
  repeat (apply steady_bind; [done|intros _]). done.
Qed.

(** C5. When the input file is missing the run fails with a
    [FileNotFoundError] whose message contains the name of the expected file
    and the directory of the script, and the output directory is left as it
    was.  The run fails with that error only when the file is missing. *)
Theorem missing_input_file (lib : Library) (w : World) (out : gmap string artifact) :
  (workbook w = None →
   main lib w out = (inl (FileNotFoundError (not_found_message w)), out)) ∧
  (∀ msg out', main lib w out = (inl (FileNotFoundError msg), out') → workbook w = None) ∧
  (∃ pre mid post,
     not_found_message w = pre +:+ DATA_FILE_name +:+ mid +:+ HERE w +:+ post).
Proof.
  split_and!.
  - intros Hw. unfold main. by rewrite Hw.
  - intros msg out' Hmain. destruct (workbook w) as [xls|] eqn:Hw; [|done].
    destruct (main_steady lib w xls Hw) as (r & ws & Hrun & Hr).
    rewrite Hrun in Hmain. injection Hmain as -> _. by destruct (Hr msg).
  - by eexists "Could not find ", (" in:" +:+ newline), _.
Qed.

Lemma missing_input_file_witness :
  main digits_only {| HERE := "/home/user/netflix"; workbook := None |} ∅
  = (inl (FileNotFoundError
            (not_found_message {| HERE := "/home/user/netflix"; workbook := None |})), ∅).
Proof.
  apply (missing_input_file digits_only
           {| HERE := "/home/user/netflix"; workbook := None |} ∅).
  reflexivity.
Defined.

(** ** Counting *)

Section tally_facts.
Context {K : Type} `{EqDecision K}.
Implicit Types (acc l : list (K * Z)) (k : K) (n : Z).

Lemma sum_counts_cons k n l : sum_counts ((k, n) :: l) = (n + sum_counts l)%Z.
Proof. done. Qed.

Lemma weight_cons k k' n l :
  weight k ((k', n) :: l) = if decide (k' = k) then (n + weight k l)%Z else weight k l.
Proof. unfold weight. rewrite filter_cons. simpl. by case_decide. Qed.

Lemma sum_counts_bump k n acc : sum_counts (bump k n acc) = (sum_counts acc + n)%Z.
Proof.
  induction acc as [|[k' m] acc IH]; simpl; [unfold sum_counts; simpl; lia|].
  case_decide; rewrite !sum_counts_cons; [|rewrite IH]; lia.
Qed.

Lemma sum_counts_foldl_bump l acc :
  sum_counts (foldl (λ a kn, bump kn.1 kn.2 a) acc l) = (sum_counts acc + sum_counts l)%Z.
Proof.
  revert acc. induction l as [|[k n] l IH]; intros acc.
  - unfold sum_counts. simpl. lia.
  - rewrite sum_counts_cons. simpl. rewrite IH, sum_counts_bump. lia.
Qed.

Lemma sum_counts_tally l : sum_counts (tally l) = sum_counts l.
Proof. unfold tally. by rewrite sum_counts_foldl_bump. Qed.

Lemma sum_counts_Permutation l1 l2 : l1 ≡ₚ l2 → sum_counts l1 = sum_counts l2.
Proof.
  induction 1 as [|[k n] l1 l2 _ IH|[k n] [k' n'] l|l1 l2 l3 _ IH1 _ IH2];
    rewrite ?sum_counts_cons; [done|by rewrite IH|lia|congruence].
Qed.

Lemma assoc_bump k k' n acc :
  assoc k' (bump k n acc) =
    if decide (k' = k) then Some (default 0%Z (assoc k' acc) + n)%Z else assoc k' acc.
Proof.
  induction acc as [|[k0 m] acc IH]; simpl.
  - by repeat case_decide.
  - destruct (decide (k = k0)) as [->|Hk]; simpl.
    + by repeat case_decide.
    + rewrite IH. repeat case_decide; congruence.
Qed.

Lemma keys_bump k n acc :
  (bump k n acc).*1 = if decide (k ∈ acc.*1) then acc.*1 else acc.*1 ++ [k].
Proof.
  induction acc as [|[k0 m] acc IH].
  - by destruct (decide (k ∈ ([] : list (K * Z)).*1)) as [Hin%elem_of_nil|].
  - cbn [bump]. destruct (decide (k = k0)) as [->|Hk].
    + rewrite !fmap_cons. cbn [fst]. rewrite decide_True; [done|]. by left.
    + rewrite !fmap_cons. cbn [fst]. rewrite IH.
      destruct (decide (k ∈ acc.*1)) as [Hin|Hin].
      * rewrite decide_True; [done|]. by right.
      * rewrite decide_False; [done|]. by intros [?|?]%elem_of_cons.
Qed.

Lemma NoDup_bump k n acc : NoDup acc.*1 → NoDup (bump k n acc).*1.
Proof.
  intros Hacc. rewrite keys_bump. case_decide as Hin; [done|].
  apply NoDup_app. split_and!; [done| |apply NoDup_singleton].
  by intros k' Hk' ->%list_elem_of_singleton.
Qed.

Lemma NoDup_foldl_bump l acc :
  NoDup acc.*1 → NoDup (foldl (λ a kn, bump kn.1 kn.2 a) acc l).*1.
Proof.
  revert acc. induction l as [|[k n] l IH]; intros acc Hacc; simpl; [done|].
  by apply IH, NoDup_bump.
Qed.

Lemma NoDup_tally l : NoDup (tally l).*1.
Proof. apply NoDup_foldl_bump. simpl. apply NoDup_nil_2. Qed.

Lemma weight_absent k l : k ∉ l.*1 → weight k l = 0%Z.
Proof.
  induction l as [|[k1 n1] l IH]; [done|].
  rewrite fmap_cons. intros [Hne Hin]%not_elem_of_cons.
  rewrite weight_cons, decide_False by done. by apply IH.
Qed.

Lemma assoc_foldl_bump l acc k :
  assoc k (foldl (λ a kn, bump kn.1 kn.2 a) acc l) =
    if decide (k ∈ l.*1) then Some (default 0%Z (assoc k acc) + weight k l)%Z
    else assoc k acc.
Proof.
  revert acc. induction l as [|[k0 n0] l IH]; intros acc.
  - by destruct (decide (k ∈ ([] : list (K * Z)).*1)) as [Hin%elem_of_nil|].
  - rewrite fmap_cons. cbn [foldl fst snd]. rewrite IH, assoc_bump, weight_cons.
    destruct (decide (k ∈ k0 :: l.*1)) as [Hc|Hc].
    + apply elem_of_cons in Hc.
      destruct (decide (k ∈ l.*1)) as [Hin|Hin];
        destruct (decide (k = k0)) as [->|Hk].
      * rewrite decide_True by done. simpl. f_equal. lia.
      * rewrite decide_False by done. done.
      * rewrite decide_True by done. rewrite (weight_absent _ _ Hin).
        f_equal. lia.
      * tauto.
    + apply not_elem_of_cons in Hc as [Hk Hin].
      by rewrite !decide_False by done.
Qed.

Lemma assoc_tally l k :
  assoc k (tally l) = if decide (k ∈ l.*1) then Some (weight k l) else None.
Proof. unfold tally. rewrite assoc_foldl_bump. simpl. by case_decide. Qed.

Lemma elem_of_assoc l k n : NoDup l.*1 → (k, n) ∈ l ↔ assoc k l = Some n.
Proof.
  induction l as [|[k0 n0] l IH]; simpl; intros Hnd.
  - split; [by intros ?%elem_of_nil|done].
  - apply NoDup_cons in Hnd as [Hk0 Hnd]. rewrite elem_of_cons, IH by done.
    case_decide as Heq.
    + subst. split; [|intros [= ->]; by left].
      intros [[= ->]|Hin]; [done|]. destruct Hk0.
      apply IH in Hin; [|done]. apply list_elem_of_fmap. by exists (k0, n).
    + split; [|by right]. intros [[= -> ->]|?]; done.
Qed.

Lemma elem_of_tally l k n :
  (k, n) ∈ tally l ↔ k ∈ l.*1 ∧ n = weight k l.
Proof.
  rewrite (elem_of_assoc _ _ _ (NoDup_tally l)), assoc_tally.
  case_decide as Hin; [|by split; [|intros []]].
  split; [by intros [= <-]|by intros [_ ->]].
Qed.

End tally_facts.

Global Instance count_ge_total {K : Type} : Total (@count_ge K).
Proof. intros a b. unfold count_ge. lia. Qed.

Global Instance count_ge_trans {K : Type} : Transitive (@count_ge K).
Proof. intros a b c. unfold count_ge. lia. Qed.

Lemma sum_counts_ones (col : list value) :
  sum_counts ((λ v, (v, 1%Z)) <$> col) = Z.of_nat (length col).
Proof.
  induction col as [|v col IH]; [done|].
  rewrite fmap_cons, sum_counts_cons, IH. simpl length. lia.
Qed.

Lemma weight_ones (k : value) (col : list value) :
  weight k ((λ v, (v, 1%Z)) <$> col) = Z.of_nat (length (filter (λ v, v = k) col)).
Proof.
  induction col as [|v col IH]; [done|].
  rewrite fmap_cons, weight_cons, filter_cons, IH.
  case_decide; [simpl length; lia|done].
Qed.

Lemma filter_fmap_length {A B : Type} (f : A → B) (P : B → Prop)
    `{∀ x, Decision (P x)} (l : list A) :
  length (filter P (f <$> l)) = length (filter (λ x, P (f x)) l).
Proof.
  induction l as [|x l IH]; [done|].
  rewrite fmap_cons, !filter_cons. case_decide; simpl; by rewrite IH.
Qed.


Lemma filter_length_pos {A : Type} (P : A → Prop) `{∀ x, Decision (P x)} (l : list A) :
  (0 < length (filter P l))%nat ↔ ∃ x, x ∈ l ∧ P x.
Proof.
  split.
  - destruct (filter P l) as [|x l'] eqn:Hf; simpl; [lia|]. intros _.
    assert (x ∈ filter P l) as Hx by (rewrite Hf; by left).
    apply list_elem_of_filter in Hx as [HP Hx]. eauto.
  - intros (x & Hx & HP).
    assert (x ∈ filter P l) as Hxf by (by apply list_elem_of_filter).
    destruct (filter P l); [by apply elem_of_nil in Hxf|simpl; lia].
Qed.









(** ** Rows selected by a mask *)

Lemma select_nil_r {A : Type} (mask : list bool) : select mask ([] : list A) = [].
Proof. unfold select. by rewrite zip_with_nil_r. Qed.

Lemma select_cons {A : Type} (b : bool) (mask : list bool) (x : A) (col : list A) :
  select (b :: mask) (x :: col) = if b then x :: select mask col else select mask col.
Proof. unfold select. simpl. rewrite filter_cons. simpl. by destruct b. Qed.

Lemma select_fmap {A B : Type} (f : A → B) (mask : list bool) (col : list A) :
  select mask (f <$> col) = f <$> select mask col.
Proof.
  revert col. induction mask as [|b mask IH]; intros [|x col]; try done.
  rewrite fmap_cons, !select_cons, IH. by destruct b.
Qed.

(** Filtering twice on the key column, once before and once after the
    conversion [f], amounts to filtering once on the converted key. *)
Lemma select_twice {A : Type} (f : value → value) (keys : list value) (col : list A) :
  f VNA = VNA →
  select (notna <$> (f <$> select (notna <$> keys) keys)) (select (notna <$> keys) col)
  = select ((λ v, notna (f v)) <$> keys) col.
Proof.
  intros Hf. revert col. induction keys as [|k keys IH]; intros [|x col];
    rewrite ?select_nil_r; try done.
  rewrite !fmap_cons, !select_cons.
  destruct k as [s|z|]; simpl; [| |rewrite Hf; apply IH];
    rewrite ?fmap_cons, !select_cons, IH; by destruct (notna (f _)).
Qed.

Lemma to_numeric_cases lib v : to_numeric lib v = VNA ∨ ∃ z, to_numeric lib v = VNum z.
Proof.
  destruct v as [s|z|]; simpl; eauto.
  destruct (Str.is_decimal s); eauto. destruct (numeric_text lib s); simpl; eauto.
Qed.

Lemma select_rows_columns mask df (name : string) :
  columns (select_rows mask df) !! name = select mask <$> columns df !! name.
Proof. unfold select_rows. simpl. apply lookup_fmap. Qed.

(** The conversion of a column acts cell by cell, by one of two maps. *)
Lemma to_numeric_col_fmap lib col :
  ∃ g, to_numeric_col lib col = g <$> col ∧
       (∀ v, held_as (to_numeric lib v) (g v)) ∧
       (∀ v, notna (g v) = notna (to_numeric lib v)).
Proof.
  unfold to_numeric_col, as_float64. destruct (forallb int64_ok _).
  - exists (to_numeric lib). split_and!; [done| |done]. intros v. apply held_as_refl.
  - exists (λ v, to_float (to_numeric lib v)). split_and!.
    + by rewrite <- list_fmap_compose.
    + intros v. apply held_as_to_float, held_as_refl.
    + intros v. by destruct (to_numeric lib v).
Qed.

Lemma held_as_astype_int v q : held_as v q → held_as v (astype_int q).
Proof.
  intros [Hna Hnum]. split.
  - rewrite <- Hna. by destruct q.
  - intros z Hv Hz. rewrite (Hnum z Hv Hz). simpl. f_equal. unfold wrap_int64.
    rewrite Z.mod_small; lia.
Qed.

(** The table of lines 75-78: the rows whose year converts to a number, with
    the year column converted by a map [h] that keeps the numbers below
    2^53. *)
Lemma parseable_years_columns lib df Y :
  columns df !! "release_year" = Some Y →
  ∃ h,
    (∀ v, held_as (to_numeric lib v) (h v)) ∧
    columns (parseable_years lib df) !! "release_year"
      = Some (h <$> select ((λ v, notna (to_numeric lib v)) <$> Y) Y) ∧
    ∀ name, name ≠ "release_year" →
      columns (parseable_years lib df) !! name
      = select ((λ v, notna (to_numeric lib v)) <$> Y) <$> columns df !! name.
Proof.
  intros HY. unfold parseable_years.
  set (m1 := notna <$> Y).
  assert (dropna "release_year" df = select_rows m1 df) as ->.
  { unfold dropna. by rewrite HY. }
  destruct (to_numeric_col_fmap lib (select m1 Y)) as (g & Hg & Hheld & Hna).
  set (tmp := {| nrows := nrows (select_rows m1 df);
                 columns := alter (to_numeric_col lib) "release_year"
                              (columns (select_rows m1 df)) |}).
  assert (columns tmp !! "release_year" = Some (g <$> select m1 Y)) as Htmp.
  { unfold tmp. cbn [columns]. by rewrite lookup_alter_eq, select_rows_columns, HY, <- Hg. }
  assert (g VNA = VNA) as HgNA.
  { destruct (Hheld VNA) as [HNA _]. by apply HNA. }
  assert (∀ A (col : list A),
    select (notna <$> (g <$> select m1 Y)) (select m1 col)
    = select ((λ v, notna (to_numeric lib v)) <$> Y) col) as Htwice.
  { intros A col. unfold m1. rewrite (select_twice g) by done.
    f_equal. apply list_fmap_ext. intros _ v _. apply Hna. }
  exists (λ v, astype_int (g v)). split_and!.
  - intros v. apply held_as_astype_int, Hheld.
  - unfold dropna. rewrite Htmp. cbn [columns].
    rewrite lookup_alter_eq, select_rows_columns, Htmp. simpl. f_equal.
    rewrite select_fmap, Htwice. by rewrite <- list_fmap_compose.
  - intros name Hname. unfold dropna. rewrite Htmp. cbn [columns].
    rewrite lookup_alter_ne, select_rows_columns by done. unfold tmp. cbn [columns].
    rewrite lookup_alter_ne, select_rows_columns by done.
    destruct (columns df !! name) as [col|]; [|done]. simpl. f_equal.
    apply Htwice.
Qed.

(** ** The pivot table *)

Global Instance value_le_total : Total value_le.
Proof.
  intros [s|x|] [t|y|]; simpl; try tauto.
  - apply (base.total String.le).
  - lia.
Qed.

Global Instance value_le_trans : Transitive value_le.
Proof.
  intros [s|x|] [t|y|] [u|z|]; simpl; try tauto.
  - apply (transitivity (R := String.le)).
  - lia.
Qed.

Global Instance row_le_total : Total row_le.
Proof. intros a b. apply (base.total value_le). Qed.

Global Instance row_le_trans : Transitive row_le.
Proof. intros a b c. apply (transitivity (R := value_le)). Qed.

(** The rows handed to the pivot, in terms of the records of the table:
    the records selected by [m], with the year converted by [f]. *)
Lemma pivot_records (m : value → bool) (f : value → value) (Y T Ti : list value) :
  zip (zip (f <$> select (m <$> Y) Y) (select (m <$> Y) T)) (select (m <$> Y) Ti)
  = (λ r, (f r.1.1, r.1.2, r.2)) <$> filter (λ r, m r.1.1 = true) (records Y T Ti).
Proof.
  unfold records. revert T Ti.
  induction Y as [|y Y IH]; intros [|t T] [|ti Ti];
    rewrite ?fmap_nil, ?select_nil_r, ?zip_with_nil_r; try done.
  rewrite !fmap_cons, !select_cons. simpl. rewrite filter_cons. simpl.
  destruct (m y) eqn:Hy; simpl; by rewrite IH.
Qed.




Lemma filter_all {A : Type} (P : A → Prop) `{∀ x, Decision (P x)} (l : list A) :
  (∀ x, x ∈ l → P x) → filter P l = l.
Proof.
  induction l as [|x l IH]; intros HP; [done|].
  rewrite filter_cons_True by (apply HP; by left).
  f_equal. apply IH. intros y Hy. apply HP. by right.
Qed.

Lemma num_labels (l : list value) :
  (∀ v, v ∈ l → ∃ z, v = VNum z) → ∃ ys, l = VNum <$> ys.
Proof.
  induction l as [|v l IH]; intros Hl; [by exists []|].
  destruct (Hl v) as [z ->]; [by left|].
  destruct IH as [ys ->]; [intros w Hw; apply Hl; by right|].
  by exists (z :: ys).
Qed.


Global Instance VNum_inj : Inj (=) (=) VNum.
Proof. by intros x y [= ->]. Qed.

Global Instance VStr_inj : Inj (=) (=) VStr.
Proof. by intros x y [= ->]. Qed.

(** Distinct integer labels in the order of the axis are strictly ascending. *)
Lemma sorted_nums (ys : list Z) :
  StronglySorted value_le (VNum <$> ys) → NoDup (VNum <$> ys) →
  StronglySorted Z.lt ys.
Proof.
  induction ys as [|y ys IH]; [constructor|].
  rewrite fmap_cons, StronglySorted_cons, NoDup_cons.
  intros [Hle Hsorted] [Hnotin Hnodup]. constructor; [by apply IH|].
  apply Forall_forall. intros z Hz.
  rewrite Forall_fmap, Forall_forall in Hle. specialize (Hle z Hz). simpl in Hle.
  assert (y ≠ z); [|lia]. intros ->. apply Hnotin. by apply list_elem_of_fmap_2.
Qed.

(** The three columns of the normalized table the pivot reads. *)
Lemma normalize_pivot_columns lib sh :
  columns (normalize lib sh) !! "release_year" = columns (standardize sh) !! "release_year" ∧
  columns (normalize lib sh) !! "title" = columns (standardize sh) !! "title" ∧
  columns (normalize lib sh) !! "type"
    = (λ raw, (λ t, VStr (Str.strip t)) <$> astype_str_col lib raw)
        <$> columns (standardize sh) !! "type".
Proof.
  assert (∀ name : string, name ∈ ["release_year"; "title"; "type"] →
    name ∉ ["duration_number"; "duration_unit"; "duration_minutes"; "duration_seasons"])
    as Hother.
  { intros name Hname. rewrite !elem_of_cons in Hname. rewrite !not_elem_of_cons.
    destruct Hname as [-> | [-> | [-> | Hname]]];
      [split_and!; try done; apply not_elem_of_nil..|by apply elem_of_nil in Hname]. }
  unfold normalize. split_and!.
  - rewrite strip_type_other, parse_duration_other; [done| |done].
    apply Hother. set_solver.
  - rewrite strip_type_other, parse_duration_other; [done| |done].
    apply Hother. set_solver.
  - rewrite strip_type_type, parse_duration_other; [done|].
    apply Hother. set_solver.
Qed.

(** The pivot of line 82 in terms of the records of the table: the records
    with a parseable year, the year converted by a map [h] that keeps the
    numbers below 2^53. *)
Lemma pivot_table_years lib sh Y T :
  columns (standardize sh) !! "release_year" = Some Y →
  columns (normalize lib sh) !! "type" = Some T →
  ∃ h,
    (∀ v, held_as (to_numeric lib v) (h v)) ∧
    pivot_table "release_year" "type" "title" 0 (parseable_years lib (normalize lib sh)) =
      match columns (standardize sh) !! "title" with
      | Some Ti =>
          inr (pivot_of 0
                 ((λ r, (h r.1.1, r.1.2, r.2))
                    <$> filter (λ r, notna (to_numeric lib r.1.1) = true)
                               (records Y T Ti)))
      | None => inl (KeyError "title")
      end.
Proof.
  intros HY HT.
  destruct (normalize_pivot_columns lib sh) as (Hyear & Htitle & _).
  rewrite HY in Hyear.
  destruct (parseable_years_columns lib _ _ Hyear) as (h & Hheld & Hys & Hother).
  exists h. split; [done|].
  unfold pivot_table, getitem.
  rewrite Hys, !Hother, Htitle, HT by done.
  destruct (columns (standardize sh) !! "title") as [Ti|]; [|done].
  simpl. f_equal. f_equal.
  apply (pivot_records (λ v, notna (to_numeric lib v)) h).
Qed.


(** A cell that every column holds exactly is converted to its number. *)
Lemma exact_number_held lib v q :
  exact_number lib v → held_as (to_numeric lib v) q → q = to_numeric lib v.
Proof.
  intros Hexact Hheld. destruct v as [s|z|]; simpl in *.
  - destruct (Str.is_decimal s) eqn:Hdec.
    + apply held_as_exact; [done|]. apply decimal_short; [|done].
      unfold Str.is_decimal in Hdec. by apply andb_prop in Hdec as [_ ?].
    + destruct (numeric_text lib s) as [|z|]; simpl in *;
        [by apply held_as_missing|by apply held_as_exact|done].
  - by apply held_as_exact.
  - by apply held_as_missing.
Qed.





(** The chart data of the sample catalogue: the record of 2020 without a
    title is not counted, and the record without a year is left out. *)
Example catalog_pivot :
  (main digits_only (one_sheet catalog_sheet) ∅).2 !! "titles_by_year_by_type.png"
  = Some (YearByTypeChart
            {| pivot_columns := [VStr "Movie"; VStr "TV Show"];
               pivot_rows := [(VNum 2019, [0%Z; 1%Z]); (VNum 2020, [1%Z; 0%Z])] |}).
Proof. vm_compute. reflexivity. Qed.

(** ** A sheet without titles *)

(** C2 does not hold of the code: on every sheet that has a [release_year]
    and a [type] column but no [title] column, the run writes the table of
    counts and then stops with [KeyError] for [title], raised by the pivot;
    no chart and no text summary are written. *)
Theorem missing_title_raises (lib : Library) (sh : Sheet)
    (Y rawT : list value) (out : gmap string artifact) :
  columns (standardize sh) !! "release_year" = Some Y →
  columns (standardize sh) !! "type" = Some rawT →
  columns (standardize sh) !! "title" = None →
  main lib (one_sheet sh) out
  = (inl (KeyError "title"),
     <["count_by_type.csv" :=
         CountByTypeCsv
           (value_counts false ((λ t, VStr (Str.strip t)) <$> astype_str_col lib rawT))]> out).
Proof.
  intros HY HT Hno.
  destruct (normalize_pivot_columns lib sh) as (Hyear & _ & Htype).
  rewrite HY in Hyear. rewrite HT in Htype. simpl in Htype.
  destruct (parseable_years_columns lib _ _ Hyear) as (h0 & _ & _ & Hother).
  destruct (pivot_table_years lib sh Y _ HY Htype) as (h & _ & Hpivot).
  rewrite Hno in Hpivot.
  unfold main, one_sheet. cbn [workbook].
  assert (pick_title_sheet [("Sheet1", sh)] = inr sh) as -> by reflexivity.
  unfold mbind, M_bind, lift, summary_table. rewrite Htype. unfold write_file.
  unfold chart_by_year.
  rewrite (proj2 (has_column_true "release_year" _)) by (rewrite Hyear; eauto).
  rewrite (proj2 (has_column_true "type" _))
    by (rewrite Hother, Htype by done; simpl; eauto).
  unfold mbind, M_bind, lift. by rewrite Hpivot.
Qed.

Lemma missing_title_raises_witness :
  main digits_only (one_sheet untitled_sheet) ∅
  = (inl (KeyError "title"),
     {["count_by_type.csv" := CountByTypeCsv [(VStr "Movie", 1%Z)]]}).
Proof.
  rewrite (missing_title_raises digits_only untitled_sheet [VNum 2020] [VStr "Movie"] ∅);
    reflexivity.
Defined.

(** * Further properties *)

(** ** The loader on any workbook *)

(** X1. On a workbook with at least one sheet the loader never fails and
    returns a sheet of the workbook; on a workbook without sheets it fails
    with [IndexError]. *)
Theorem pick_title_sheet_total (xls : list (string * Sheet)) :
  (xls = [] → pick_title_sheet xls = inl IndexError) ∧
  (xls ≠ [] → ∃ name sh, pick_title_sheet xls = inr sh ∧ (name, sh) ∈ xls).
Proof.
  split.
  - intros ->. reflexivity.
  - intros Hne. unfold pick_title_sheet.
    destruct (pick_preferred xls preferred) as [r|] eqn:Hpick.
    + revert Hpick. generalize preferred. intros names.
      induction names as [|m names IH]; simpl; [done|].
      case_bool_decide as Hin; [|done]. intros [= <-].
      destruct (read_excel_listed xls m Hin) as (sh & Hread & Hsh). eauto.
    + destruct xls as [|[first sh] rest]; [done|]. simpl.
      rewrite decide_True by done. exists first, sh. split; [done|]. by left.
Qed.

Lemma pick_title_sheet_total_witness :
  ∃ name sh, pick_title_sheet sample_workbook = inr sh ∧ (name, sh) ∈ sample_workbook.
Proof. apply (pick_title_sheet_total sample_workbook). discriminate. Defined.

(** ** Texts: containment, trimming and labels *)

Lemma app_assoc_string (s t u : string) : (s +:+ t) +:+ u = s +:+ (t +:+ u).
Proof. induction s as [|c s IH]; [done|]. by rewrite !app_cons, IH. Qed.

Lemma app_empty_r (s : string) : s +:+ EmptyString = s.
Proof. induction s as [|c s IH]; [done|]. by rewrite app_cons, IH. Qed.

Lemma startswith_app pat post : Str.startswith pat (pat +:+ post) = true.
Proof.
  induction pat as [|c pat IH]; [done|].
  rewrite app_cons. simpl. by rewrite Ascii.eqb_refl.
Qed.

Lemma startswith_split pat s :
  Str.startswith pat s = true → ∃ post, s = pat +:+ post.
Proof.
  revert s. induction pat as [|c pat IH]; intros s; [by exists s|].
  destruct s as [|a s]; simpl; [done|].
  intros [Hc Hs]%andb_prop. apply Ascii.eqb_eq in Hc as ->.
  destruct (IH s Hs) as [post ->]. by exists post.
Qed.

(** X2. The containment test of lines 57-58 holds exactly when the pattern
    occurs in the text as a run of consecutive characters. *)
Theorem contains_occurs (pat s : string) :
  Str.contains pat s = true ↔ occurs_in pat s.
Proof.
  split.
  - induction s as [|a s IH]; simpl.
    + rewrite orb_false_r. intros [post Hs]%startswith_split.
      by exists EmptyString, post.
    + intros [[post Hs]%startswith_split | (pre & post & ->)%IH]%orb_prop.
      * by exists EmptyString, post.
      * by exists (String a pre), post.
  - intros (pre & post & ->). induction pre as [|a pre IH].
    + rewrite app_empty.
      destruct (pat +:+ post) eqn:Happ; simpl; rewrite <- Happ, startswith_app; done.
    + rewrite app_cons. simpl. by rewrite IH, orb_true_r.
Qed.

Lemma rev_app_spec (s t : string) : String.rev_app s t = String.rev s +:+ t.
Proof.
  unfold String.rev. revert t. induction s as [|a s IH]; intros t; [done|].
  simpl. rewrite (IH (String a t)), (IH (String a EmptyString)).
  by rewrite app_assoc_string.
Qed.

Lemma rev_cons a (s : string) :
  String.rev (String a s) = String.rev s +:+ String a EmptyString.
Proof. unfold String.rev at 1. simpl. apply rev_app_spec. Qed.

Lemma rev_app_distr (s t : string) :
  String.rev (s +:+ t) = String.rev t +:+ String.rev s.
Proof.
  induction s as [|a s IH]; [by rewrite app_empty, app_empty_r|].
  by rewrite app_cons, !rev_cons, IH, app_assoc_string.
Qed.

Lemma forallb_app p (s t : string) :
  Str.forallb p (s +:+ t) = Str.forallb p s && Str.forallb p t.
Proof.
  induction s as [|a s IH]; [done|].
  rewrite app_cons. simpl. by rewrite IH, andb_assoc.
Qed.

Lemma forallb_rev p (s : string) : Str.forallb p (String.rev s) = Str.forallb p s.
Proof.
  induction s as [|a s IH]; [done|].
  rewrite rev_cons, forallb_app, IH. simpl. by rewrite andb_true_r, andb_comm.
Qed.

Lemma lstrip_all_space (s : string) :
  Str.forallb Str.is_space s = true → Str.lstrip s = EmptyString.
Proof.
  induction s as [|a s IH]; [done|]. simpl.
  intros [Ha Hs]%andb_prop. rewrite Ha. by apply IH.
Qed.

Lemma lstrip_app (s t : string) :
  Str.lstrip (s +:+ t) =
    if Str.forallb Str.is_space s then Str.lstrip t else Str.lstrip s +:+ t.
Proof.
  induction s as [|a s IH]; [done|].
  rewrite app_cons. simpl. destruct (Str.is_space a); [apply IH|done].
Qed.

(** [rstrip], read from the front of the text. *)
Lemma rstrip_cons a (s : string) :
  Str.rstrip (String a s) =
    if Str.forallb Str.is_space (String a s) then EmptyString
    else String a (Str.rstrip s).
Proof.
  unfold Str.rstrip. rewrite rev_cons, lstrip_app, forallb_rev. simpl.
  destruct (Str.forallb Str.is_space s) eqn:Hs.
  - rewrite andb_true_r. destruct (Str.is_space a); [done|].
    by rewrite (lstrip_all_space (String.rev s)) by (by rewrite forallb_rev).
  - rewrite andb_false_r. by rewrite rev_app_distr.
Qed.

Lemma rstrip_empty (s : string) :
  Str.rstrip s = EmptyString → Str.forallb Str.is_space s = true.
Proof.
  destruct s as [|a s]; [done|]. rewrite rstrip_cons.
  by destruct (Str.forallb Str.is_space (String a s)).
Qed.

Lemma rstrip_not_blank (s : string) :
  Str.forallb Str.is_space (Str.rstrip s) = true → Str.rstrip s = EmptyString.
Proof.
  induction s as [|a s IH]; [done|]. rewrite rstrip_cons.
  destruct (Str.forallb Str.is_space (String a s)) eqn:Hall; [done|].
  simpl. intros [Ha Hs]%andb_prop. apply IH, rstrip_empty in Hs.
  simpl in Hall. by rewrite Ha, Hs in Hall.
Qed.

Lemma rstrip_idem (s : string) : Str.rstrip (Str.rstrip s) = Str.rstrip s.
Proof.
  induction s as [|a s IH]; [done|]. rewrite rstrip_cons.
  destruct (Str.forallb Str.is_space (String a s)) eqn:Hall; [done|].
  rewrite rstrip_cons, IH.
  destruct (Str.forallb Str.is_space (String a (Str.rstrip s))) eqn:Hall'; [|done].
  simpl in Hall'. apply andb_prop in Hall' as [Ha Hs].
  apply rstrip_not_blank, rstrip_empty in Hs. simpl in Hall.
  by rewrite Ha, Hs in Hall.
Qed.

Lemma lstrip_idem (s : string) : Str.lstrip (Str.lstrip s) = Str.lstrip s.
Proof.
  induction s as [|a s IH]; [done|]. simpl.
  destruct (Str.is_space a) eqn:Ha; [done|]. simpl. by rewrite Ha.
Qed.

Lemma lstrip_rstrip (s : string) :
  Str.lstrip s = s → Str.lstrip (Str.rstrip s) = Str.rstrip s.
Proof.
  destruct s as [|a s]; [done|]. simpl.
  destruct (Str.is_space a) eqn:Ha.
  - intros Hs. assert (String.length (Str.lstrip s) ≤ String.length s)%nat as Hlen.
    { clear. induction s as [|b s IH]; simpl; [done|].
      destruct (Str.is_space b); simpl; lia. }
    rewrite Hs in Hlen. simpl in Hlen. lia.
  - intros _. rewrite rstrip_cons. simpl. rewrite Ha. simpl. by rewrite Ha.
Qed.

Lemma strip_trimmed (s : string) : trimmed (Str.strip s).
Proof.
  unfold trimmed, Str.strip. split; [|apply rstrip_idem].
  apply lstrip_rstrip, lstrip_idem.
Qed.



Lemma lower_char_facts (c : ascii) :
  Str.is_upper (Str.lower_char c) = false ∧
  Str.is_space (Str.lower_char c) = Str.is_space c ∧
  Str.lower_char (Str.lower_char c) = Str.lower_char c ∧
  (Str.is_space c = false → Ascii.eqb c " " = false) ∧
  Str.is_space "_" = false ∧
  (Ascii.eqb (Str.lower_char c) " " = true → Ascii.eqb c " " = true).
Proof.
  destruct c as [[] [] [] [] [] [] [] []]; vm_compute; repeat split; intros; congruence.
Qed.

Lemma forallb_space_lower (s : string) :
  Str.forallb Str.is_space (Str.lower s) = Str.forallb Str.is_space s.
Proof.
  induction s as [|a s IH]; [done|]. simpl.
  by rewrite IH, (proj1 (proj2 (lower_char_facts a))).
Qed.

Lemma lower_trimmed (s : string) : trimmed s → trimmed (Str.lower s).
Proof.
  intros [Hl Hr]. split.
  - destruct s as [|a s]; [done|]. simpl in *.
    rewrite (proj1 (proj2 (lower_char_facts a))).
    destruct (Str.is_space a) eqn:Ha; [|done].
    assert (String.length (Str.lstrip s) ≤ String.length s)%nat as Hlen.
    { clear. induction s as [|b s IH]; simpl; [done|].
      destruct (Str.is_space b); simpl; lia. }
    rewrite Hl in Hlen. simpl in Hlen. lia.
  - clear Hl. induction s as [|a s IH]; [done|].
    rewrite rstrip_cons in Hr. simpl Str.lower. rewrite rstrip_cons.
    change (String (Str.lower_char a) (Str.lower s)) with (Str.lower (String a s)).
    rewrite forallb_space_lower.
    destruct (Str.forallb Str.is_space (String a s)); [done|].
    injection Hr as Hr. simpl. by rewrite IH.
Qed.

Lemma forallb_space_replace (s : string) :
  Str.forallb Str.is_space (Str.replace " " "_" s) = true →
  Str.forallb Str.is_space s = true.
Proof.
  induction s as [|a s IH]; [done|]. simpl.
  intros [Ha Hs]%andb_prop. rewrite (IH Hs), andb_true_r.
  destruct (Ascii.eqb a " "); [|done].
  by rewrite (proj1 (proj2 (proj2 (proj2 (proj2 (lower_char_facts a)))))) in Ha.
Qed.

Lemma replace_trimmed (s : string) : trimmed s → trimmed (Str.replace " " "_" s).
Proof.
  intros [Hl Hr]. split.
  - destruct s as [|a s]; [done|]. simpl in *.
    destruct (Str.is_space a) eqn:Ha.
    + assert (String.length (Str.lstrip s) ≤ String.length s)%nat as Hlen.
      { clear. induction s as [|b s IH]; simpl; [done|].
        destruct (Str.is_space b); simpl; lia. }
      rewrite Hl in Hlen. simpl in Hlen. lia.
    + rewrite (proj1 (proj2 (proj2 (proj2 (lower_char_facts a)))) Ha).
      by rewrite Ha.
  - clear Hl. induction s as [|a s IH]; [done|].
    rewrite rstrip_cons in Hr.
    destruct (Str.forallb Str.is_space (String a s)) eqn:Hall; [done|].
    injection Hr as Hr. simpl Str.replace. rewrite rstrip_cons, (IH Hr).
    match goal with |- (if ?b then _ else _) = _ => destruct b eqn:Hall' end; [|done].
    apply (forallb_space_replace (String a s)) in Hall'. congruence.
Qed.

Lemma lower_replace_lower (s : string) :
  Str.lower (Str.replace " " "_" (Str.lower s)) = Str.replace " " "_" (Str.lower s).
Proof.
  induction s as [|a s IH]; [done|]. simpl. rewrite IH. f_equal.
  destruct (Ascii.eqb (Str.lower_char a) " "); [done|].
  apply lower_char_facts.
Qed.

Lemma replace_idem (s : string) :
  Str.replace " " "_" (Str.replace " " "_" s) = Str.replace " " "_" s.
Proof.
  induction s as [|a s IH]; [done|]. simpl. rewrite IH. f_equal.
  destruct (Ascii.eqb a " ") eqn:Ha; [done|]. by rewrite Ha.
Qed.

Lemma trimmed_strip (s : string) : trimmed s → Str.strip s = s.
Proof. intros [Hl Hr]. unfold Str.strip. by rewrite Hl, Hr. Qed.

(** X4. A standardised column label (line 50) has no space and no upper-case
    letter, neither starts nor ends with whitespace, and standardising it
    again changes nothing. *)
Theorem standardize_label_normal (c : string) :
  Str.forallb (λ a, negb (Ascii.eqb a " ")) (standardize_label c) = true ∧
  Str.forallb (λ a, negb (Str.is_upper a)) (standardize_label c) = true ∧
  trimmed (standardize_label c) ∧
  standardize_label (standardize_label c) = standardize_label c.
Proof.
  unfold standardize_label.
  assert (trimmed (Str.replace " " "_" (Str.lower (Str.strip c)))) as Htrim.
  { apply replace_trimmed, lower_trimmed, strip_trimmed. }
  split_and!; [| |done|].
  - generalize (Str.lower (Str.strip c)). intros s.
    induction s as [|a s IH]; [done|]. simpl. rewrite IH, andb_true_r.
    by destruct (Ascii.eqb a " ") eqn:Ha; [|rewrite Ha].
  - generalize (Str.strip c). intros s.
    induction s as [|a s IH]; [done|]. simpl. rewrite IH, andb_true_r.
    destruct (Ascii.eqb (Str.lower_char a) " "); [done|].
    by rewrite (proj1 (lower_char_facts a)).
  - by rewrite (trimmed_strip _ Htrim), lower_replace_lower, replace_idem.
Qed.

(** ** Shape of the tables *)

(** X5. Normalization changes no column other than [type] and the four
    duration columns; in particular the [duration] text column is kept as it
    was read. *)
Theorem normalize_frame (lib : Library) (sh : Sheet) (name : string) :
  name ∉ ["type"; "duration_number"; "duration_unit";
          "duration_minutes"; "duration_seasons"] →
  columns (normalize lib sh) !! name = columns (standardize sh) !! name.
Proof.
  intros Hname. apply not_elem_of_cons in Hname as [Hty Hname].
  unfold normalize. by rewrite strip_type_other, parse_duration_other.
Qed.

Lemma normalize_frame_witness :
  columns (normalize digits_only durations_sheet) !! "duration"
  = Some [VStr "90 min"; VStr "3 Seasons"; VStr "TBA"; VNum 45].
Proof.
  rewrite (normalize_frame digits_only durations_sheet "duration"); [reflexivity|].
  rewrite !not_elem_of_cons. split_and!; [done..|]. apply not_elem_of_nil.
Defined.

(** ** The files of a run *)

Lemma touches_ret {A : Type} names (x : A) : touches_only names (mret x).
Proof. by intros out name _. Qed.

Lemma touches_lift {A : Type} names (r : exn + A) : touches_only names (lift r).
Proof. by intros out name _. Qed.

Lemma touches_write names name a : name ∈ names → touches_only names (write_file name a).
Proof.
  intros Hin out name' Hname'. unfold write_file. simpl.
  rewrite lookup_insert_ne; [done|]. by intros ->.
Qed.

Lemma touches_bind {A B : Type} names (m : M A) (f : A → M B) :
  touches_only names m → (∀ x, touches_only names (f x)) →
  touches_only names (m ≫= f).
Proof.
  intros Hm Hf out name Hname. unfold mbind, M_bind.
  specialize (Hm out name Hname). destruct (m out) as [[e|x] out']; [done|].
  simpl in Hm. by rewrite Hf.
Qed.

Lemma steps_touch lib df :
  touches_only output_files (summary_table df) ∧
  touches_only output_files (chart_by_year lib df) ∧
  touches_only output_files (chart_ratings lib df) ∧
  touches_only output_files (chart_durations lib df) ∧
  touches_only output_files (text_summary df).
Proof.
  assert (∀ name a, name ∈ output_files → touches_only output_files (write_file name a))
    as Hw by (intros; by apply touches_write).
  split_and!.
  - unfold summary_table. destruct (columns df !! "type"); [|apply touches_ret].
    apply Hw. unfold output_files. set_solver.
  - unfold chart_by_year.
    destruct (has_column "release_year" df); [|apply touches_ret].
    destruct (has_column "type" _).
    + apply touches_bind; [apply touches_lift|]. intros p. simpl.
      apply touches_bind; [apply touches_lift|]. intros _.
      apply Hw. unfold output_files. set_solver.
    + apply touches_bind; [apply touches_lift|]. intros years.
      apply Hw. unfold output_files. set_solver.
  - unfold chart_ratings. destruct (columns df !! "rating"); [|apply touches_ret].
    apply Hw. unfold output_files. set_solver.
  - unfold chart_durations. apply touches_bind; [apply touches_lift|].
    intros col. simpl. case_bool_decide; [|apply touches_ret].
    destruct (histogram_error lib _); [by intros out name _|].
    apply Hw. unfold output_files. set_solver.
  - apply Hw. unfold output_files. set_solver.
Qed.

(** X7. Whatever the input and however the run ends, it creates, replaces
    or removes no file other than the six fixed ones: the table of counts,
    the two year charts, the ratings chart, the histogram and the text
    summary. *)
Theorem only_output_files (lib : Library) (w : World)
    (out : gmap string artifact) (name : string) :
  name ∉ output_files →
  (main lib w out).2 !! name = out !! name.
Proof.
  revert out name. change (touches_only output_files (main lib w)).
  unfold main. destruct (workbook w) as [xls|]; [|by intros out name _].
  apply touches_bind; [apply touches_lift|]. intros sheet. simpl.
  destruct (steps_touch lib (normalize lib sheet)) as (H1 & H2 & H3 & H4 & H5).
  repeat (apply touches_bind; [done|intros _]). done.
Qed.

Lemma only_output_files_witness :
  (main digits_only (one_sheet catalog_sheet) {["notes.txt" := DurationHist []]}).2
    !! "notes.txt"
  = Some (DurationHist []).
Proof.
  rewrite (only_output_files digits_only (one_sheet catalog_sheet)); [reflexivity|].
  unfold output_files. rewrite !not_elem_of_cons.
  split_and!; [done..|]. apply not_elem_of_nil.
Defined.

(** ** The steps of a run, one by one *)








Lemma chart_by_year_no_type lib sh Y out :
  columns (standardize sh) !! "release_year" = Some Y →
  columns (standardize sh) !! "type" = None →
  ∃ h,
    (∀ v, held_as (to_numeric lib v) (h v)) ∧
    chart_by_year lib (normalize lib sh) out
    = (inr (),
       <["titles_by_year.png" :=
           YearChart (groupby_size
                        (h <$> select ((λ v, notna (to_numeric lib v)) <$> Y) Y))]> out).
Proof.
  intros HY HT. destruct (normalize_pivot_columns lib sh) as (Hyear & _ & Htype).
  rewrite HY in Hyear. rewrite HT in Htype.
  destruct (parseable_years_columns lib _ _ Hyear) as (h & Hheld & Hys & Hother).
  exists h. split; [done|]. unfold chart_by_year.
  rewrite (proj2 (has_column_true "release_year" _)) by (rewrite Hyear; eauto).
  rewrite (proj2 (has_column_false "type" _))
    by (by rewrite Hother, Htype by done).
  unfold getitem. by rewrite Hys.
Qed.













(** ** The ratings chart *)




(** ** The year chart of a sheet without types *)

Global Instance key_le_total : Total key_le.
Proof. intros a b. apply (base.total value_le). Qed.

Global Instance key_le_trans : Transitive key_le.
Proof. intros a b c. apply (transitivity (R := value_le)). Qed.

Lemma select_self {A : Type} (p : A → bool) (l : list A) :
  select (p <$> l) l = filter (λ x, p x = true) l.
Proof.
  induction l as [|x l IH]; [done|].
  rewrite fmap_cons, select_cons, filter_cons, IH.
  destruct (p x); [by rewrite decide_True|by rewrite decide_False].
Qed.

(** X13. On a sheet whose labels stay distinct, with a [release_year]
    column of exact years and no [type] column, the year chart is always
    written, to [titles_by_year.png], even when no year is parseable.  Its
    points are the integer years that occur, each once and in strictly
    ascending order, with the number of records of that year; the counts add
    up to the number of records with a parseable year. *)
Theorem year_chart_without_type (lib : Library) (sh : Sheet)
    (Y : list value) (out : gmap string artifact) :
  distinct_labels sh →
  columns (standardize sh) !! "release_year" = Some Y →
  columns (standardize sh) !! "type" = None →
  Forall (exact_number lib) Y →
  ∃ counts ys,
    chart_by_year lib (normalize lib sh) out
      = (inr (), <["titles_by_year.png" := YearChart counts]> out) ∧
    counts.*1 = VNum <$> ys ∧
    StronglySorted Z.lt ys ∧
    (∀ z n, (VNum z, n) ∈ counts ↔
       (0 < n)%Z ∧
       n = Z.of_nat (length (filter (λ v, to_numeric lib v = VNum z) Y))) ∧
    sum_counts counts = Z.of_nat (length (filter (λ v, to_numeric lib v ≠ VNA) Y)).
Proof.
  intros _ HY HT Hexact.
  destruct (chart_by_year_no_type lib sh Y out HY HT) as (h & Hheld & Hrun).
  rewrite select_self in Hrun.
  set (P := λ v, notna (to_numeric lib v) = true) in *.
  assert (h <$> filter P Y = to_numeric lib <$> filter P Y) as Hconv.
  { apply list_fmap_ext. intros i v Hv. apply list_elem_of_lookup_2 in Hv.
    apply list_elem_of_filter in Hv as [_ Hv]. rewrite Forall_forall in Hexact.
    apply (exact_number_held lib v); [by apply Hexact|apply Hheld]. }
  rewrite Hconv in Hrun. clear Hconv h Hheld.
  set (years := to_numeric lib <$> filter P Y) in *.
  assert (dropna_col years = years) as Hdrop.
  { apply filter_all. intros v (y & -> & [Hy _]%list_elem_of_filter)%list_elem_of_fmap.
    unfold P in Hy. by rewrite Hy. }
  set (tal := tally ((λ v, (v, 1%Z)) <$> years)).
  assert (groupby_size years ≡ₚ tal) as Hperm.
  { unfold groupby_size. rewrite Hdrop. apply merge_sort_Permutation. }
  assert (∀ z, length (filter (λ v, v = VNum z) years)
               = length (filter (λ v, to_numeric lib v = VNum z) Y)) as Hcount.
  { intros z. unfold years.
    rewrite (filter_fmap_length _ (λ v, v = VNum z)), list_filter_filter. f_equal.
    apply list_filter_iff. intros v. unfold P. split; [by intros [? _]|].
    intros Hv. by rewrite Hv. }
  assert (∀ k n, (k, n) ∈ groupby_size years ↔
    (0 < n)%Z ∧ n = Z.of_nat (length (filter (λ v, v = k) years))) as Hrows.
  { intros k n. rewrite Hperm. unfold tal.
    rewrite elem_of_tally, weight_ones, <- list_fmap_compose. split.
    - intros [Hin ->]. split; [|done].
      apply list_elem_of_fmap in Hin as (v & -> & Hv). simpl.
      assert (0 < length (filter (λ v0, v0 = v) years))%nat; [|lia].
      apply filter_length_pos. eauto.
    - intros [Hpos ->]. split; [|done].
      assert (0 < length (filter (λ v, v = k) years))%nat as Hlen by lia.
      apply filter_length_pos in Hlen as (v & Hv & <-).
      apply list_elem_of_fmap. by exists v. }
  destruct (num_labels (groupby_size years).*1) as [ys Hlabels].
  { intros k (kn & -> & Hkn)%list_elem_of_fmap. destruct kn as [k n].
    apply Hrows in Hkn as [Hpos ->]. simpl.
    assert (0 < length (filter (λ v, v = k) years))%nat as Hlen by lia.
    apply filter_length_pos in Hlen as (v & Hv & <-).
    apply list_elem_of_fmap in Hv as (y & -> & [Hy _]%list_elem_of_filter).
    unfold P in Hy. destruct (to_numeric_cases lib y) as [Hna | [z Hz]]; [|eauto].
    by rewrite Hna in Hy. }
  exists (groupby_size years), ys. split_and!; [done|done| | |].
  - apply sorted_nums; rewrite <- Hlabels.
    + apply (StronglySorted_fmap fst key_le value_le); [done|].
      apply StronglySorted_merge_sort; apply _.
    + rewrite Hperm. apply NoDup_tally.
  - intros z n. by rewrite Hrows, Hcount.
  - rewrite (sum_counts_Permutation _ _ Hperm). unfold tal.
    rewrite sum_counts_tally, sum_counts_ones. unfold years. rewrite length_fmap.
    do 2 f_equal. apply list_filter_iff. intros v. unfold P.
    by destruct (to_numeric lib v).
Qed.

Lemma year_chart_without_type_witness :
  ∃ counts ys,
    chart_by_year digits_only (normalize digits_only years_sheet) ∅
      = (inr (), {["titles_by_year.png" := YearChart counts]}) ∧
    counts.*1 = VNum <$> ys ∧ StronglySorted Z.lt ys ∧
    sum_counts counts = 3%Z.
Proof.
  destruct (year_chart_without_type digits_only years_sheet
              [VNum 2021; VStr "2019"; VStr "unknown"; VNum 2021] ∅)
    as (counts & ys & Hrun & Hlabels & Hsorted & _ & Hsum).
  - apply (bool_decide_unpack _). reflexivity.
  - reflexivity.
  - reflexivity.
  - apply (bool_decide_unpack _). reflexivity.
  - exists counts, ys. split_and!; [done..|]. rewrite Hsum. reflexivity.
Defined.

(** ** Duration cells that are not texts *)







